(** * Memory MCP server (index.js): a shallow embedding and its properties

    The server keeps a long-term memory document (MEMORY.md), one note per
    calendar date (memory/YYYY-MM-DD.md) and TODO marker lines inside the
    notes.  Every tool is a read-modify-write over text files.

    Modelling choices.
    - A JavaScript string is its sequence of UTF-16 code units, [list N].
    - A tool is a computation in a state monad over a [world]: the files,
      the clock and a log of the file-system calls made, so that "touches
      storage" is a statement about the log.
    - The file system is the store the operations see, a finite map from
      paths to documents.  It is the reliable key-value store of section 1
      of the specification: a write is accepted and a file that exists can
      be read.  The [catch] branches of [readFile] and [writeFile] are
      kept.
    - Files are UTF-8.  [writeFileSync(p, c, 'utf8')] encodes a lone
      surrogate of [c] as U+FFFD, and [readFileSync(p, 'utf8')] decodes to
      a string without lone surrogates: what is read back after a write
      of [c] is [c.toWellFormed()].  The world holds what is on the disk
      ([disk]); [files] is the view of it through the decoder.
    - [new Date().toISOString()] reads a clock: the world carries the
      successive readings.
    - An argument with a default value is an [option]; [None] is
      [undefined].  A number is an integer.
    - [String.prototype.toLowerCase], [path.join] and
      [String.prototype.localeCompare] belong to the platform and are
      section variables; module [Node] gives instances for the examples. *)

From Stdlib Require Import ZArith NArith Ascii String.
From stdpp Require Import gmap list sorting.

Set Default Proof Using "Type".
Local Open Scope N_scope.

(** ** JavaScript strings *)

Abbreviation jsstring := (list N).

(** A literal: the code units of an ASCII string. *)
Definition js (s : string) : jsstring :=
  List.map N_of_ascii (list_ascii_of_string s).

Arguments js : simpl never.

Module JS.

(** ECMAScript WhiteSpace and LineTerminator code points, the ones
    [String.prototype.trim] strips. *)
Definition isWhiteSpace (c : N) : bool :=
  (c =? 9) || (c =? 10) || (c =? 11) || (c =? 12) || (c =? 13) || (c =? 32)
  || (c =? 160) || (c =? 5760) || ((8192 <=? c) && (c <=? 8202))
  || (c =? 8232) || (c =? 8233) || (c =? 8239) || (c =? 8287)
  || (c =? 12288) || (c =? 65279).

Fixpoint trimStart (s : jsstring) : jsstring :=
  match s with
  | c :: s' => if isWhiteSpace c then trimStart s' else s
  | [] => []
  end.

Definition trimEnd (s : jsstring) : jsstring := rev (trimStart (rev s)).

Definition trim (s : jsstring) : jsstring := trimEnd (trimStart s).

(** [s.startsWith(p)] *)
Fixpoint startsWith (s p : jsstring) {struct p} : bool :=
  match p, s with
  | [], _ => true
  | a :: p', b :: s' => (a =? b) && startsWith s' p'
  | _ :: _, [] => false
  end.

(** [s.includes(sub)] *)
Fixpoint includes (s sub : jsstring) : bool :=
  startsWith s sub ||
  match s with
  | [] => false
  | _ :: s' => includes s' sub
  end.

(** [s.substring(n)] *)
Definition substring (n : nat) (s : jsstring) : jsstring := drop n s.

(** [s.replace(pat, rep)] for a string pattern and a replacement without
    [$] patterns: the first occurrence only. *)
Fixpoint replace (s pat rep : jsstring) : jsstring :=
  if startsWith s pat then rep ++ drop (length pat) s
  else match s with
       | [] => []
       | c :: s' => c :: replace s' pat rep
       end.

(** [s.split(sep)] for a separator of one code unit. *)
Fixpoint split (sep : N) (s : jsstring) : list jsstring :=
  match s with
  | [] => [[]]
  | c :: s' =>
      if c =? sep then [] :: split sep s'
      else match split sep s' with
           | l :: ls => (c :: l) :: ls
           | [] => [[c]]
           end
  end.

(** [ls.join(sep)] *)
Fixpoint join (sep : N) (ls : list jsstring) : jsstring :=
  match ls with
  | [] => []
  | [l] => l
  | l :: ls' => l ++ sep :: join sep ls'
  end.

(** [l.slice(start, end)] on integer arguments. *)
Definition clamp_index (len : nat) (i : Z) : nat :=
  if (i <? 0)%Z then Z.to_nat (Z.max (Z.of_nat len + i) 0)
  else Z.to_nat (Z.min i (Z.of_nat len)).

Definition slice {A} (start end_ : Z) (l : list A) : list A :=
  let k := clamp_index (length l) start in
  let final := clamp_index (length l) end_ in
  take (final - k)%nat (drop k l).

(** [l.sort(cmp)]: the sort is stable; for a comparator that is a
    consistent order every stable sort returns the same list. *)
Fixpoint insert_sorted {A} (cmp : A → A → Z) (x : A) (l : list A) : list A :=
  match l with
  | [] => [x]
  | y :: l' => if (cmp x y <=? 0)%Z then x :: y :: l'
               else y :: insert_sorted cmp x l'
  end.

Fixpoint sort {A} (cmp : A → A → Z) (l : list A) : list A :=
  match l with
  | [] => []
  | x :: l' => insert_sorted cmp x (sort cmp l')
  end.

(** UTF-16 surrogate code units. *)
Definition isHighSurrogate (c : N) : bool := (55296 <=? c) && (c <=? 56319).
Definition isLowSurrogate (c : N) : bool := (56320 <=? c) && (c <=? 57343).
Definition isSurrogate (c : N) : bool := isHighSurrogate c || isLowSurrogate c.

(** [s.isWellFormed()]: every surrogate is half of a pair. *)
Fixpoint isWellFormed (s : jsstring) : bool :=
  match s with
  | [] => true
  | c :: s' =>
      if isHighSurrogate c then
        match s' with
        | d :: s'' => isLowSurrogate d && isWellFormed s''
        | [] => false
        end
      else negb (isLowSurrogate c) && isWellFormed s'
  end.

(** [s.toWellFormed()]: every lone surrogate replaced by U+FFFD.  It is
    the string that decoding the UTF-8 encoding of [s] gives. *)
Fixpoint toWellFormed (s : jsstring) : jsstring :=
  match s with
  | [] => []
  | c :: s' =>
      if isHighSurrogate c then
        match s' with
        | d :: s'' =>
            if isLowSurrogate d then c :: d :: toWellFormed s''
            else 65533 :: toWellFormed s'
        | [] => [65533]
        end
      else if isLowSurrogate c then 65533 :: toWellFormed s'
      else c :: toWellFormed s'
  end.

(** A value of type [string | null] in a condition: [!content]. *)
Definition falsy (c : option jsstring) : bool :=
  match c with
  | None | Some [] => true
  | Some (_ :: _) => false
  end.

(** [content || ''] *)
Definition or_empty (c : option jsstring) : jsstring := default [] c.

(** Code unit order on strings (the order of [<] on JavaScript strings). *)
Fixpoint lex_lt (a b : jsstring) : Prop :=
  match a, b with
  | [], [] => False
  | [], _ :: _ => True
  | _ :: _, [] => False
  | x :: a', y :: b' => x < y ∨ (x = y ∧ lex_lt a' b')
  end.

End JS.

(** ** The world: text store, clock and log of file-system calls *)

Inductive fs_event : Type :=
  | EvExists (p : jsstring)            (* fs.existsSync(p) *)
  | EvRead (p : jsstring)              (* fs.readFileSync(p, 'utf8') *)
  | EvWrite (p c : jsstring).          (* fs.writeFileSync(p, c, 'utf8') *)

Record world : Type := World {
  disk : gmap jsstring jsstring;       (* path to the text last written *)
  clock : nat → jsstring;              (* readings of toISOString() *)
  ticks : nat;                         (* readings consumed so far *)
  log : list fs_event                  (* file-system calls, oldest first *)
}.

(** The documents of the store, as [readFileSync(p, 'utf8')] returns
    them: the decoder gives U+FFFD for what does not encode a code
    point, so no document has a lone surrogate. *)
Definition files (w : world) : gmap jsstring jsstring :=
  JS.toWellFormed <$> disk w.

Arguments files : simpl never.

Definition IO (A : Type) : Type := world → A * world.

Definition ret {A} (a : A) : IO A := λ w, (a, w).
Definition bind {A B} (m : IO A) (k : A → IO B) : IO B :=
  λ w, let '(a, w') := m w in k a w'.

Notation "'let!' x ':=' m 'in' k" := (bind m (λ x, k))
  (at level 10, x pattern, m at level 100, k at level 200,
   format "'[v' 'let!'  x  ':='  m  'in' '/' k ']'").

Definition run {A} (m : IO A) (w : world) : A := fst (m w).
Definition exec {A} (m : IO A) (w : world) : world := snd (m w).

Definition existsSync (p : jsstring) : IO bool :=
  λ w, (bool_decide (is_Some (files w !! p)),
        World (disk w) (clock w) (ticks w) (log w ++ [EvExists p])).

(** A call that can throw: the value returned, or the message of the
    exception. *)
Inductive outcome (A : Type) : Type :=
  | Returned (a : A)
  | Thrown (message : jsstring).

Arguments Returned {A} a.
Arguments Thrown {A} message.

(** Reading a file that is not in the store throws. *)
Definition readFileSync (p : jsstring) : IO (outcome jsstring) :=
  λ w, (match files w !! p with
        | Some c => Returned c
        | None => Thrown (js "ENOENT: no such file or directory")
        end,
        World (disk w) (clock w) (ticks w) (log w ++ [EvRead p])).

(** The store accepts every write.  It has no directories: creating the
    missing parent directory ([mkdirSync]) is part of the write.  The
    text is stored in UTF-8: it is read back as [c.toWellFormed()]. *)
Definition writeFileSync (p c : jsstring) : IO (outcome unit) :=
  λ w, (Returned tt,
        World (<[p:=c]> (disk w)) (clock w) (ticks w)
              (log w ++ [EvWrite p c])).

(** [new Date().toISOString()] *)
Definition toISOString_now : IO jsstring :=
  λ w, (clock w (ticks w), World (disk w) (clock w) (S (ticks w)) (log w)).

(** A parameter with a default value: the default is evaluated only when
    the argument is [undefined]. *)
Definition default_arg {A} (arg : option A) (dflt : IO A) : IO A :=
  match arg with
  | Some a => ret a
  | None => dflt
  end.

Definition nl : N := 10.

Module CONFIG.
Definition workspace : jsstring := js "/root/.openclaw/workspace".
Definition memoryFile : jsstring := js "/root/.openclaw/workspace/MEMORY.md".
Definition memoryDir : jsstring := js "/root/.openclaw/workspace/memory".
(** [/^\d{4}-\d{2}-\d{2}\.md$/.test(f)] *)
Definition isDigit (c : N) : bool := (48 <=? c) && (c <=? 57).
Definition dailyNotePattern (f : jsstring) : bool :=
  match f with
  | [y1; y2; y3; y4; h1; m1; m2; h2; d1; d2; dot; cm; cd] =>
      isDigit y1 && isDigit y2 && isDigit y3 && isDigit y4 && (h1 =? 45)
      && isDigit m1 && isDigit m2 && (h2 =? 45)
      && isDigit d1 && isDigit d2 && (dot =? 46) && (cm =? 109) && (cd =? 100)
  | _ => false
  end.
Definition todoMarker : jsstring := Eval cbv in js "[ ]".
Definition doneMarker : jsstring := Eval cbv in js "[x]".
End CONFIG.

(** ** Results of the tools *)

Record write_result := WriteResult {
  wr_success : bool; wr_error : option jsstring }.

Record add_memory_result := AddMemoryResult {
  am_success : bool; am_entry : jsstring; am_category : jsstring;
  am_timestamp : jsstring }.

(** [searchMemory] returns one of two shapes. *)
Inductive search_result : Type :=
  | NoQuery (results : list jsstring) (message : jsstring)
  | Found (query : jsstring) (count : nat) (results : list jsstring).

Record daily_note := DailyNote {
  exists_ : bool; date : jsstring; content : option jsstring }.

Record add_daily_note_result := AddDailyNoteResult {
  an_success : bool; an_date : jsstring; an_entry : jsstring;
  an_timestamp : jsstring }.

Record list_result := ListResult {
  notes : list jsstring; lr_count : nat; lr_error : option jsstring }.

Record todo_item := TodoItem { text : jsstring; done : bool; line : nat }.

(** [td_count] is [None] when the object has no [count] property. *)
Record todos_result := TodosResult {
  todos : list todo_item; td_date : jsstring; td_count : option nat }.

Record add_todo_result := AddTodoResult {
  at_success : bool; at_date : jsstring; at_todo : jsstring }.

(** [completeTODO] returns one of three shapes. *)
Inductive complete_result : Type :=
  | NoteNotFound (error : jsstring)
  | TodoNotFound (error : jsstring) (todo : jsstring)
  | Completed (success : bool) (todo : jsstring) (completed : bool).

(** [fs.readdirSync(CONFIG.memoryDir)]: the names in the directory, or
    the message of the exception. *)
Inductive readdir_result : Type :=
  | Listing (names : list jsstring)
  | ReaddirError (message : jsstring).

(** ** The operations of index.js *)

(** [readFile]: the content, or [null] when the file does not exist or
    the read throws. *)
Definition readFile (filePath : jsstring) : IO (option jsstring) :=
  let! e := existsSync filePath in
  if e then
    let! r := readFileSync filePath in
    match r with
    | Returned c => ret (Some c)
    | Thrown _ => ret None
    end
  else ret None.

(** [writeFile]: the exception of a failed write becomes a result.  The
    store has no directories, so the [existsSync(dir)] and [mkdirSync] that
    come before the write are not calls of the log. *)
Definition writeFile (filePath content : jsstring) : IO write_result :=
  let! r := writeFileSync filePath content in
  match r with
  | Returned _ => ret (WriteResult true None)
  | Thrown e => ret (WriteResult false (Some e))
  end.

Definition todayStr : IO jsstring :=
  let! iso := toISOString_now in
  ret (default [] (head (JS.split 84 iso))).

Definition getMemory : IO jsstring :=
  let! c := readFile CONFIG.memoryFile in
  ret (JS.or_empty c).

Definition addMemory (entry : jsstring) (category : option jsstring)
  : IO add_memory_result :=
  let! category := default_arg category (ret (js "General")) in
  let! content := getMemory in
  let! timestamp := toISOString_now in
  let newEntry :=
    nl :: js "## " ++ category ++ nl :: js "- **" ++ timestamp ++ js "**: "
       ++ entry in
  let newContent := content ++ newEntry in
  let! result := writeFile CONFIG.memoryFile newContent in
  ret (AddMemoryResult (wr_success result) entry category timestamp).

(** ** A concrete platform

    Functions that agree with Node's on the inputs of the examples:
    [toLowerCase] on ASCII strings, [path.join] on a directory and a file
    name without separators or dots-only segments, [localeCompare] on
    strings of digits, [-] and [.md]. *)
Module Node.

Definition toLowerCase (s : jsstring) : jsstring :=
  List.map (λ c, if (65 <=? c) && (c <=? 90) then c + 32 else c) s.

Definition path_join (dir name : jsstring) : jsstring :=
  dir ++ js "/" ++ name.

Fixpoint localeCompare (a b : jsstring) : Z :=
  match a, b with
  | [], [] => 0
  | [], _ :: _ => -1
  | _ :: _, [] => 1
  | x :: a', y :: b' =>
      if x <? y then -1 else if y <? x then 1 else localeCompare a' b'
  end.

(** The path of a note, as [path.join] gives it. *)
Definition note_file (dateStr : jsstring) : jsstring :=
  path_join CONFIG.memoryDir (dateStr ++ js ".md").

(** A world with no file, whose clock always reads the same instant. *)
Definition empty_world : world :=
  World ∅ (λ _, js "2024-01-01T09:30:00.000Z") 0 [].

(** The same world with one file in it. *)
Definition world_with_file (path doc : jsstring) : world :=
  World {[ path := doc ]} (λ _, js "2024-01-01T09:30:00.000Z") 0 [].

Definition world_with_note (dateStr doc : jsstring) : world :=
  world_with_file (note_file dateStr) doc.

Definition world_with_memory (doc : jsstring) : world :=
  world_with_file CONFIG.memoryFile doc.

End Node.

Section Platform.

(** [String.prototype.toLowerCase], [path.join] and
    [String.prototype.localeCompare]. *)
Variable toLowerCase : jsstring → jsstring.
Variable path_join : jsstring → jsstring → jsstring.
Variable localeCompare : jsstring → jsstring → Z.

Definition searchMemory (query : jsstring) : IO search_result :=
  let! content := getMemory in
  let content := toLowerCase content in
  let queryLower := toLowerCase query in
  if bool_decide (query = []) then
    ret (NoQuery [] (js "No query provided"))
  else
    let! memory := getMemory in
    let lines := JS.split nl memory in
    let matches :=
      List.filter (λ line : jsstring, negb (bool_decide (length line = 0%nat)))
        (List.map (λ '(line, idx), JS.trim line)
           (List.filter
              (λ '(line, idx), JS.includes (toLowerCase line) queryLower)
              (imap (λ (idx : nat) (line : jsstring), (line, idx)) lines))) in
    ret (Found query (length matches) (JS.slice 0 20 matches)).

Definition note_path (dateStr : jsstring) : jsstring :=
  path_join CONFIG.memoryDir (dateStr ++ js ".md").

Definition getDailyNote (dateStr : option jsstring) : IO daily_note :=
  let! dateStr := default_arg dateStr todayStr in
  let filePath := note_path dateStr in
  let! content := readFile filePath in
  if JS.falsy content then ret (DailyNote false dateStr None)
  else ret (DailyNote true dateStr content).

Definition addDailyNote (entry : jsstring) (dateStr : option jsstring)
  : IO add_daily_note_result :=
  let! dateStr := default_arg dateStr todayStr in
  let filePath := note_path dateStr in
  let! content := readFile filePath in
  let content := JS.or_empty content in
  let! timestamp := toISOString_now in
  let newEntry := js "- **" ++ timestamp ++ js "**: " ++ entry ++ [nl] in
  let content := content ++ newEntry in
  let! result := writeFile filePath content in
  ret (AddDailyNoteResult (wr_success result) dateStr entry timestamp).

Definition is_todo_line (line : jsstring) : bool :=
  JS.startsWith (JS.trim line) CONFIG.todoMarker
  || JS.startsWith (JS.trim line) CONFIG.doneMarker.

Definition getTODOs (dateStr : option jsstring) : IO todos_result :=
  let! dateStr := default_arg dateStr todayStr in
  let! note := getDailyNote (Some dateStr) in
  if negb (exists_ note) then ret (TodosResult [] dateStr None)
  else
    let lines := JS.split nl (JS.or_empty (content note)) in
    let todos :=
      List.map
        (λ '(line, idx),
           TodoItem (JS.trim (JS.substring 4 (JS.trim line)))
                    (JS.startsWith (JS.trim line) CONFIG.doneMarker)
                    idx)
        (List.filter (λ '(line, idx), is_todo_line line)
           (imap (λ (idx : nat) (line : jsstring), (line, idx)) lines)) in
    ret (TodosResult todos dateStr (Some (length todos))).

Definition addTODO (todo : jsstring) (dateStr : option jsstring)
  : IO add_todo_result :=
  let! dateStr := default_arg dateStr todayStr in
  let filePath := note_path dateStr in
  let! content := readFile filePath in
  let content := JS.or_empty content in
  let content :=
    if negb (JS.includes content (js "## TODOs"))
    then content ++ nl :: js "## TODOs" ++ [nl]
    else content in
  let newEntry := js "- " ++ CONFIG.todoMarker ++ js " " ++ todo ++ [nl] in
  let content := content ++ newEntry in
  let! result := writeFile filePath content in
  ret (AddTodoResult (wr_success result) dateStr todo).

(** The [for] loop of [completeTODO]: the lines after the loop and the
    value of [found]. *)
Fixpoint complete_loop (todoText : jsstring) (lines : list jsstring)
  : list jsstring * bool :=
  match lines with
  | [] => ([], false)
  | l :: rest =>
      let line := JS.trim l in
      if JS.startsWith line CONFIG.todoMarker && JS.includes line todoText
      then (JS.replace line CONFIG.todoMarker CONFIG.doneMarker :: rest, true)
      else let '(rest', found) := complete_loop todoText rest in
           (l :: rest', found)
  end.

Definition completeTODO (todoText : jsstring) (dateStr : option jsstring)
  : IO complete_result :=
  let! dateStr := default_arg dateStr todayStr in
  let filePath := note_path dateStr in
  let! content := readFile filePath in
  if JS.falsy content then ret (NoteNotFound (js "Daily note not found"))
  else
    let lines := JS.split nl (JS.or_empty content) in
    let '(lines, found) := complete_loop todoText lines in
    if negb found then ret (TodoNotFound (js "TODO not found") todoText)
    else
      let! result := writeFile filePath (JS.join nl lines) in
      ret (Completed (wr_success result) todoText true).

(** [readdir] is the outcome of [fs.readdirSync(CONFIG.memoryDir)]. *)
Definition listDailyNotes (readdir : readdir_result) (limit : option Z)
  : list_result :=
  let limit := default 10%Z limit in
  match readdir with
  | Listing files =>
      let notes :=
        List.map (λ f, JS.replace f (js ".md") [])
          (JS.slice 0 limit
             (JS.sort (λ a b, localeCompare b a)
                (List.filter CONFIG.dailyNotePattern files))) in
      ListResult notes (length notes) None
  | ReaddirError message => ListResult [] 0 (Some message)
  end.

(** ** Definitions used in the statements *)

(** The file-system calls of one [readFile]. *)
Definition read_events (p : jsstring) (o : option jsstring) : list fs_event :=
  EvExists p :: match o with Some _ => [EvRead p] | None => [] end.

Definition is_write (e : fs_event) : bool :=
  match e with EvWrite _ _ => true | _ => false end.

Definition read_world (p : jsstring) (w : world) : world :=
  World (disk w) (clock w) (ticks w) (log w ++ read_events p (files w !! p)).



(** The document [addTODO] writes. *)
Definition with_todo (todo : jsstring) (prior : jsstring) : jsstring :=
  (if negb (JS.includes prior (js "## TODOs"))
   then prior ++ nl :: js "## TODOs" ++ [nl] else prior)
  ++ js "- " ++ CONFIG.todoMarker ++ js " " ++ todo ++ [nl].

(** The items [getTODOs] builds from the lines of a document. *)
Definition todo_items (lines : list jsstring) : list todo_item :=
  List.map
    (λ '(line, idx),
       TodoItem (JS.trim (JS.substring 4 (JS.trim line)))
                (JS.startsWith (JS.trim line) CONFIG.doneMarker)
                idx)
    (List.filter (λ '(line, idx), is_todo_line line)
       (imap (λ (idx : nat) (line : jsstring), (line, idx)) lines)).

(** A pending line: its trimmed form starts with the pending marker. *)
Definition is_pending (line : jsstring) : bool :=
  JS.startsWith (JS.trim line) CONFIG.todoMarker.

(** The test of the loop of [completeTODO]. *)
Definition pending_match (todoText line : jsstring) : bool :=
  is_pending line && JS.includes (JS.trim line) todoText.

(** [l] is line [i] and the first line that satisfies [P]. *)
Definition first_match (P : jsstring → bool) (lines : list jsstring)
    (i : nat) (l : jsstring) : Prop :=
  lines !! i = Some l ∧ P l = true
  ∧ ∀ j l', (j < i)%nat → lines !! j = Some l' → P l' = false.

(** What [completeTODO] stores for the line it flips: the trimmed line
    with the done marker in place of its first three code units. *)
Definition flip_marker (line : jsstring) : jsstring :=
  CONFIG.doneMarker ++ drop 3 (JS.trim line).

(** No line of the document passes the test of the loop. *)
Definition no_pending_match (todoText doc : jsstring) : bool :=
  forallb (λ l, negb (pending_match todoText l)) (JS.split nl doc).

(** The file-system calls made from world [w] to world [w'] that write. *)
Definition writes_between (w w' : world) : list fs_event :=
  List.filter is_write (drop (length (log w)) (log w')).

(** ** More of index.js: the context summary and the input framing *)

(** [d.setDate(d.getDate() - 1)] on an instant; an instant is written as
    its [toISOString()]. *)
Variable dayBefore : jsstring → jsstring.

Definition yesterdayStr : IO jsstring :=
  let! now := toISOString_now in
  let yesterday := dayBefore now in
  ret (default [] (head (JS.split 84 yesterday))).

Record context := Context {
  cx_date : jsstring; todayExists : bool; yesterdayExists : bool;
  pendingTodos : nat; recentNotes : list jsstring; cx_workspace : jsstring }.

(** [readdir] is the outcome of the [readdirSync] of [listDailyNotes]. *)
Definition getContext (readdir : readdir_result) : IO context :=
  let! d := todayStr in
  let! today := getDailyNote (Some d) in
  let! d := yesterdayStr in
  let! yesterday := getDailyNote (Some d) in
  let! todos_ := getTODOs None in
  let recent := listDailyNotes readdir (Some 5%Z) in
  let! d := todayStr in
  ret (Context d (exists_ today) (exists_ yesterday)
         (length (List.filter (λ t, negb (done t)) (todos todos_)))
         (notes recent) CONFIG.workspace).

(** The listener of [readStdin] on one line: the buffer handed to
    [JSON.parse] and [handleMessage], if any, and the buffer afterwards. *)
Definition on_line (line buffer : jsstring) : option jsstring * jsstring :=
  if bool_decide (JS.trim line = []) then
    if negb (bool_decide (JS.trim buffer = [])) then (Some buffer, [])
    else (None, buffer)
  else (None, buffer ++ line ++ [nl]).

(** [readStdin] on the lines read so far, from a buffer: the buffers
    handed on, in order, and the buffer left. *)
Fixpoint readStdin (lines : list jsstring) (buffer : jsstring)
  : list jsstring * jsstring :=
  match lines with
  | [] => ([], buffer)
  | line :: rest =>
      let '(frame, buffer) := on_line line buffer in
      let '(frames, buffer) := readStdin rest buffer in
      (match frame with Some f => f :: frames | None => frames end, buffer)
  end.

(** ** Definitions used in the statements of the further properties *)

(** The line [addDailyNote] appends. *)
Definition note_line (timestamp entry : jsstring) : jsstring :=
  js "- **" ++ timestamp ++ js "**: " ++ entry ++ [nl].

(** The section [addMemory] appends. *)
Definition memory_section (category timestamp entry : jsstring) : jsstring :=
  nl :: js "## " ++ category ++ nl :: js "- **" ++ timestamp ++ js "**: " ++ entry.

(** The line [addTODO] appends. *)
Definition todo_bullet (todo : jsstring) : jsstring :=
  js "- " ++ CONFIG.todoMarker ++ js " " ++ todo ++ [nl].

(** A document that is empty or ends with a line feed. *)
Definition ends_with_newline (doc : jsstring) : Prop :=
  doc = [] ∨ ∃ a, doc = a ++ [nl].

(** The date part of an ISO reading, as [todayStr] takes it. *)
Definition date_part (iso : jsstring) : jsstring :=
  default [] (head (JS.split 84 iso)).

(** The world after [n] readings of the clock. *)
Definition after_readings (n : nat) (w : world) : world :=
  World (disk w) (clock w) (n + ticks w) (log w).

(** A line of white space only, and the frame of a block of lines. *)
Definition blank (line : jsstring) : Prop := JS.trim line = [].

Definition frame_of (block : list jsstring) : jsstring :=
  concat (List.map (λ l, l ++ [nl]) block).

(** ** Facts about the string primitives *)

Section StringFacts.

Implicit Types (s p r : jsstring) (c sep : N) (ls : list jsstring).

Lemma startsWith_prefix s p : JS.startsWith s p = true ↔ p `prefix_of` s.
Proof.
  revert s. induction p as [|a p IH]; intros s; simpl.
  - split; [intros _; apply prefix_nil | done].
  - destruct s as [|b s].
    + split; [done | intros [k Hk]; discriminate].
    + rewrite andb_true_iff, N.eqb_eq, IH. split.
      * intros [-> Hp]. by apply prefix_cons.
      * intros [k Hk]. injection Hk as -> ->. split; [done | by exists k].
Qed.

Lemma includes_unfold s sub :
  JS.includes s sub
  = JS.startsWith s sub || match s with [] => false | _ :: s' => JS.includes s' sub end.
Proof. by destruct s. Qed.

Lemma includes_infix s sub :
  JS.includes s sub = true ↔ ∃ a r, s = a ++ sub ++ r.
Proof.
  induction s as [|c s IH]; rewrite includes_unfold, orb_true_iff, startsWith_prefix.
  - split.
    + intros [[k Hk]|?]; [|done]. by exists [], k.
    + intros (a & r & H). left. destruct a; [by exists r | discriminate].
  - rewrite IH. split.
    + intros [[k Hk]|(a & r & ->)]; [by exists [], k|].
      by exists (c :: a), r.
    + intros (a & r & H). destruct a as [|c' a]; simpl in H.
      * left. by exists r.
      * right. injection H as -> ->. by exists a, r.
Qed.

Lemma includes_nil s : JS.includes s [] = true.
Proof. rewrite includes_unfold. by destruct s. Qed.

Lemma replace_startsWith s pat rep :
  JS.startsWith s pat = true →
  JS.replace s pat rep = rep ++ drop (length pat) s.
Proof. intros H. destruct s; simpl; by rewrite H. Qed.

(** *** split and join *)

Lemma split_nonempty sep s : JS.split sep s ≠ [].
Proof.
  induction s as [|c s IH]; simpl; [done|].
  destruct (c =? sep); [done|]. by destruct (JS.split sep s).
Qed.

Lemma split_no_sep sep s : Forall (λ l, sep ∉ l) (JS.split sep s).
Proof.
  induction s as [|c s IH]; simpl.
  - repeat constructor. apply not_elem_of_nil.
  - destruct (N.eqb_spec c sep) as [->|Hne].
    + constructor; [apply not_elem_of_nil | done].
    + destruct (JS.split sep s) as [|l ls] eqn:E; [by apply split_nonempty in E|].
      inversion_clear IH as [|?? Hl Hls]. constructor; [|done].
      rewrite elem_of_cons. intros [->|?]; done.
Qed.

Lemma join_split sep s : JS.join sep (JS.split sep s) = s.
Proof.
  induction s as [|c s IH]; simpl; [done|].
  destruct (N.eqb_spec c sep) as [->|Hne].
  - destruct (JS.split sep s) as [|l ls] eqn:E; [by apply split_nonempty in E|].
    simpl. simpl in IH. by rewrite IH.
  - destruct (JS.split sep s) as [|l ls] eqn:E; [by apply split_nonempty in E|].
    destruct ls; simpl in *; by rewrite IH.
Qed.

Lemma split_app_no_sep sep l s :
  sep ∉ l → JS.split sep (l ++ sep :: s) = l :: JS.split sep s.
Proof.
  induction l as [|c l IH]; intros Hl; simpl.
  - by rewrite N.eqb_refl.
  - rewrite not_elem_of_cons in Hl. destruct Hl as [Hc Hl].
    destruct (N.eqb_spec c sep) as [->|_]; [done|]. by rewrite IH.
Qed.

Lemma split_no_sep_id sep l : sep ∉ l → JS.split sep l = [l].
Proof.
  induction l as [|c l IH]; intros Hl; simpl; [done|].
  rewrite not_elem_of_cons in Hl. destruct Hl as [Hc Hl].
  destruct (N.eqb_spec c sep) as [->|_]; [done|]. by rewrite IH.
Qed.

Lemma split_join sep ls :
  ls ≠ [] → Forall (λ l, sep ∉ l) ls → JS.split sep (JS.join sep ls) = ls.
Proof.
  induction ls as [|l ls IH]; intros Hne Hall; [done|].
  inversion_clear Hall as [|?? Hl Hls].
  destruct ls as [|l' ls]; simpl.
  - by apply split_no_sep_id.
  - rewrite split_app_no_sep by done. f_equal. by apply IH.
Qed.

(** *** trim *)

Lemma trimStart_suffix s : JS.trimStart s `suffix_of` s.
Proof.
  induction s as [|c s IH]; simpl; [done|].
  destruct (JS.isWhiteSpace c); [by apply suffix_cons_r | done].
Qed.

Lemma trimStart_elem c s : c ∈ JS.trimStart s → c ∈ s.
Proof.
  destruct (trimStart_suffix s) as [k Hk]. intros H. rewrite Hk.
  apply elem_of_app. by right.
Qed.

Lemma trim_elem c s : c ∈ JS.trim s → c ∈ s.
Proof.
  unfold JS.trim, JS.trimEnd. intros H.
  apply list_elem_of_In, in_rev, list_elem_of_In, trimStart_elem in H.
  apply list_elem_of_In, in_rev, list_elem_of_In in H.
  by apply trimStart_elem.
Qed.

(** A string that starts with a marker whose last code unit is not white
    space keeps the marker under [trimEnd]. *)
Lemma trimStart_keeps_tail a c r :
  JS.isWhiteSpace c = false → ∃ a', JS.trimStart (a ++ c :: r) = a' ++ c :: r.
Proof.
  intros Hc. induction a as [|x a [a' IH]]; simpl.
  - exists []. by rewrite Hc.
  - destruct (JS.isWhiteSpace x); [by exists a' | by exists (x :: a)].
Qed.

Lemma trimEnd_keeps_head p c r :
  JS.isWhiteSpace c = false → (p ++ [c]) `prefix_of` JS.trimEnd ((p ++ [c]) ++ r).
Proof.
  intros Hc. unfold JS.trimEnd.
  rewrite !rev_app_distr. simpl.
  destruct (trimStart_keeps_tail (rev r) c (rev p) Hc) as [a' ->].
  rewrite rev_app_distr. simpl. rewrite rev_involutive.
  exists (rev a'). by rewrite <- !app_assoc.
Qed.

Lemma trim_keeps_marker c0 p c r :
  JS.isWhiteSpace c0 = false → JS.isWhiteSpace c = false →
  ((c0 :: p) ++ [c]) `prefix_of` JS.trim (((c0 :: p) ++ [c]) ++ r).
Proof.
  intros H0 Hc. unfold JS.trim. simpl. rewrite H0.
  apply (trimEnd_keeps_head (c0 :: p) c r Hc).
Qed.

Lemma trim_head c s :
  JS.isWhiteSpace c = false → ∃ t, JS.trim (c :: s) = c :: t.
Proof.
  intros Hc. unfold JS.trim, JS.trimEnd. simpl. rewrite Hc. simpl.
  destruct (trimStart_keeps_tail (rev s) c [] Hc) as [a' ->].
  exists (rev a'). by rewrite rev_app_distr.
Qed.

(** *** The primitives on small inputs *)

Example trim_example :
  JS.trim (9 :: 32 :: js "[ ] a  b" ++ [160; 13]) = js "[ ] a  b".
Proof. reflexivity. Qed.

Example split_example :
  JS.split nl (js "a" ++ nl :: nl :: js "b" ++ [nl]) = [js "a"; []; js "b"; []].
Proof. reflexivity. Qed.

Example split_empty_example : JS.split nl [] = [[]].
Proof. reflexivity. Qed.

Example join_example : JS.join nl [js "a"; []; js "b"] = js "a" ++ nl :: nl :: js "b".
Proof. reflexivity. Qed.

Example replace_example : JS.replace (js "a.md.md") (js ".md") [] = js "a.md".
Proof. reflexivity. Qed.

Example includes_example :
  JS.includes (js "- [ ] write spec") (js "[ ]") = true
  ∧ JS.startsWith (js "- [ ] write spec") (js "[ ]") = false.
Proof. split; reflexivity. Qed.

Example slice_example :
  JS.slice 0 2 [1; 2; 3] = [1; 2] ∧ JS.slice 0 7 [1; 2; 3] = [1; 2; 3]
  ∧ JS.slice 0 (-1) [1; 2; 3] = [1; 2].
Proof. split_and!; reflexivity. Qed.

Example dailyNotePattern_example :
  CONFIG.dailyNotePattern (js "2024-01-02.md") = true
  ∧ CONFIG.dailyNotePattern (js "2024-1-2.md") = false
  ∧ CONFIG.dailyNotePattern (js "2024-01-02.md.bak") = false
  ∧ CONFIG.dailyNotePattern (js "x2024-01-02.md") = false.
Proof. split_and!; reflexivity. Qed.

Example todayStr_example :
  run todayStr (World ∅ (λ _, js "2024-01-01T09:30:00.000Z") 0 []) = js "2024-01-01".
Proof. reflexivity. Qed.

End StringFacts.

(** ** Facts about the UTF-8 transcoding *)

Section Utf8Facts.

Implicit Types (s a b h : jsstring) (c d : N) (ls : list jsstring).

Lemma list_pair_ind {A} (P : list A → Prop) :
  P [] → (∀ x, P [x]) → (∀ x y l, P l → P (y :: l) → P (x :: y :: l)) →
  ∀ l, P l.
Proof.
  intros Hnil Hone Hstep l.
  enough (P l ∧ ∀ x, P (x :: l)) as [? _] by done.
  induction l as [|y l [IH1 IH2]]; [by split|].
  split; [apply IH2|]. intros x. by apply Hstep.
Qed.

Lemma isSurrogate_false c :
  JS.isSurrogate c = false
  ↔ JS.isHighSurrogate c = false ∧ JS.isLowSurrogate c = false.
Proof. unfold JS.isSurrogate. apply orb_false_iff. Qed.

Lemma whiteSpace_not_surrogate c :
  JS.isWhiteSpace c = true → JS.isSurrogate c = false.
Proof.
  unfold JS.isWhiteSpace, JS.isSurrogate, JS.isHighSurrogate, JS.isLowSurrogate.
  rewrite !orb_true_iff, !andb_true_iff, !N.eqb_eq, !N.leb_le.
  rewrite orb_false_iff, !andb_false_iff, !N.leb_gt. lia.
Qed.

Lemma toWellFormed_eq c s :
  JS.toWellFormed (c :: s)
  = if JS.isHighSurrogate c then
      match s with
      | d :: s'' => if JS.isLowSurrogate d then c :: d :: JS.toWellFormed s''
                    else 65533 :: JS.toWellFormed s
      | [] => [65533]
      end
    else if JS.isLowSurrogate c then 65533 :: JS.toWellFormed s
    else c :: JS.toWellFormed s.
Proof. by destruct s. Qed.

Lemma isWellFormed_eq c s :
  JS.isWellFormed (c :: s)
  = if JS.isHighSurrogate c then
      match s with
      | d :: s'' => JS.isLowSurrogate d && JS.isWellFormed s''
      | [] => false
      end
    else negb (JS.isLowSurrogate c) && JS.isWellFormed s.
Proof. by destruct s. Qed.

Lemma toWellFormed_cons c s :
  JS.isSurrogate c = false → JS.toWellFormed (c :: s) = c :: JS.toWellFormed s.
Proof. intros [Hh Hl]%isSurrogate_false. by rewrite toWellFormed_eq, Hh, Hl. Qed.

Lemma isWellFormed_cons c s :
  JS.isSurrogate c = false → JS.isWellFormed (c :: s) = JS.isWellFormed s.
Proof. intros [Hh Hl]%isSurrogate_false. by rewrite isWellFormed_eq, Hh, Hl. Qed.

(** What is read back has no lone surrogate. *)
Lemma toWellFormed_isWellFormed s : JS.isWellFormed (JS.toWellFormed s) = true.
Proof.
  induction s as [|x|x y l IH1 IH2] using list_pair_ind; [done|..].
  - rewrite toWellFormed_eq.
    destruct (JS.isHighSurrogate x) eqn:Hx; [done|].
    destruct (JS.isLowSurrogate x) eqn:Lx; [done|].
    by rewrite isWellFormed_eq, Hx, Lx.
  - rewrite toWellFormed_eq.
    destruct (JS.isHighSurrogate x) eqn:Hx.
    + destruct (JS.isLowSurrogate y) eqn:Ly.
      * by rewrite isWellFormed_eq, Hx, Ly.
      * by rewrite isWellFormed_cons.
    + destruct (JS.isLowSurrogate x) eqn:Lx.
      * by rewrite isWellFormed_cons.
      * by rewrite isWellFormed_eq, Hx, Lx.
Qed.

(** A string without lone surrogates is read back as written; more
    generally the transcoding leaves a well-formed prefix as it is. *)
Lemma toWellFormed_app a b :
  JS.isWellFormed a = true → JS.toWellFormed (a ++ b) = a ++ JS.toWellFormed b.
Proof.
  induction a as [|x|x y l IH1 IH2] using list_pair_ind; [done|..].
  - rewrite isWellFormed_eq.
    destruct (JS.isHighSurrogate x) eqn:Hx; [done|].
    destruct (JS.isLowSurrogate x) eqn:Lx; [done|]. intros _.
    change ([x] ++ b) with (x :: b). by rewrite toWellFormed_eq, Hx, Lx.
  - rewrite isWellFormed_eq. change ((x :: y :: l) ++ b) with (x :: y :: l ++ b).
    rewrite toWellFormed_eq. change (y :: l ++ b) with ((y :: l) ++ b).
    destruct (JS.isHighSurrogate x) eqn:Hx.
    + intros [Ly Hl]%andb_true_iff. rewrite Ly. by rewrite IH1.
    + destruct (JS.isLowSurrogate x) eqn:Lx; [done|]. simpl negb. rewrite andb_true_l.
      intros Hl. by rewrite (IH2 Hl).
Qed.

Lemma toWellFormed_id s : JS.isWellFormed s = true → JS.toWellFormed s = s.
Proof.
  intros H. rewrite <- (app_nil_r s) at 1. rewrite toWellFormed_app by done.
  by rewrite app_nil_r.
Qed.

Lemma isWellFormed_app a b :
  JS.isWellFormed a = true → JS.isWellFormed (a ++ b) = JS.isWellFormed b.
Proof.
  induction a as [|x|x y l IH1 IH2] using list_pair_ind; [done|..].
  - rewrite isWellFormed_eq.
    destruct (JS.isHighSurrogate x) eqn:Hx; [done|].
    destruct (JS.isLowSurrogate x) eqn:Lx; [done|]. intros _.
    change ([x] ++ b) with (x :: b). by rewrite isWellFormed_eq, Hx, Lx.
  - rewrite isWellFormed_eq. change ((x :: y :: l) ++ b) with (x :: y :: l ++ b).
    rewrite (isWellFormed_eq x). change (y :: l ++ b) with ((y :: l) ++ b).
    destruct (JS.isHighSurrogate x) eqn:Hx.
    + intros [Ly Hl]%andb_true_iff. rewrite Ly. by rewrite IH1.
    + destruct (JS.isLowSurrogate x) eqn:Lx; [done|]. simpl negb. rewrite !andb_true_l.
      intros Hl. by rewrite (IH2 Hl).
Qed.

(** A code unit that is not a surrogate cuts the string in two parts
    that are transcoded apart. *)
Lemma toWellFormed_split a c b :
  JS.isSurrogate c = false →
  JS.toWellFormed (a ++ c :: b) = JS.toWellFormed a ++ c :: JS.toWellFormed b.
Proof.
  intros Hc. pose proof Hc as [Hh Hl]%isSurrogate_false.
  induction a as [|x|x y l IH1 IH2] using list_pair_ind.
  - by apply toWellFormed_cons.
  - change ([x] ++ c :: b) with (x :: c :: b).
    rewrite !(toWellFormed_eq x), Hl.
    destruct (JS.isHighSurrogate x); [by rewrite toWellFormed_cons|].
    destruct (JS.isLowSurrogate x); by rewrite toWellFormed_cons.
  - change ((x :: y :: l) ++ c :: b) with (x :: y :: l ++ c :: b).
    rewrite !(toWellFormed_eq x).
    change (y :: l ++ c :: b) with ((y :: l) ++ c :: b).
    destruct (JS.isHighSurrogate x).
    + destruct (JS.isLowSurrogate y); [by rewrite IH1 | by rewrite IH2].
    + destruct (JS.isLowSurrogate x); by rewrite IH2.
Qed.

Lemma isWellFormed_split a c b :
  JS.isSurrogate c = false →
  JS.isWellFormed (a ++ c :: b) = JS.isWellFormed a && JS.isWellFormed b.
Proof.
  intros Hc. pose proof Hc as [Hh Hl]%isSurrogate_false.
  induction a as [|x|x y l IH1 IH2] using list_pair_ind.
  - by apply isWellFormed_cons.
  - change ([x] ++ c :: b) with (x :: c :: b).
    rewrite !(isWellFormed_eq x), Hl.
    destruct (JS.isHighSurrogate x); [done|].
    rewrite isWellFormed_cons by done.
    by destruct (JS.isLowSurrogate x).
  - change ((x :: y :: l) ++ c :: b) with (x :: y :: l ++ c :: b).
    rewrite !(isWellFormed_eq x).
    change (y :: l ++ c :: b) with ((y :: l) ++ c :: b).
    destruct (JS.isHighSurrogate x).
    + rewrite IH1. by rewrite andb_assoc.
    + rewrite IH2. by rewrite andb_assoc.
Qed.

(** Text without surrogates, such as the ASCII text the tools add. *)
Lemma plain_isWellFormed h :
  Forall (λ c, JS.isSurrogate c = false) h → JS.isWellFormed h = true.
Proof.
  induction 1 as [|c h Hc _ IH]; [done|]. by rewrite isWellFormed_cons.
Qed.

Lemma toWellFormed_plain_l h b :
  Forall (λ c, JS.isSurrogate c = false) h →
  JS.toWellFormed (h ++ b) = h ++ JS.toWellFormed b.
Proof. intros H. by apply toWellFormed_app, plain_isWellFormed. Qed.

Lemma toWellFormed_plain_r a h :
  Forall (λ c, JS.isSurrogate c = false) h →
  JS.toWellFormed (a ++ h) = JS.toWellFormed a ++ h.
Proof.
  intros H. destruct H as [|c h Hc H]; [by rewrite !app_nil_r|].
  rewrite toWellFormed_split by done.
  by rewrite (toWellFormed_id h) by by apply plain_isWellFormed.
Qed.

Lemma js_plain (t : string) : Forall (λ c, JS.isSurrogate c = false) (js t).
Proof.
  unfold js. apply Forall_forall. intros c Hc%list_elem_of_In.
  apply in_map_iff in Hc as (a & <- & _).
  pose proof (N_ascii_bounded a).
  unfold JS.isSurrogate, JS.isHighSurrogate, JS.isLowSurrogate.
  rewrite orb_false_iff, !andb_false_iff, !N.leb_gt. lia.
Qed.

Lemma toWellFormed_length s : length (JS.toWellFormed s) = length s.
Proof.
  induction s as [|x|x y l IH1 IH2] using list_pair_ind; [done|..].
  - rewrite toWellFormed_eq. by repeat case_match.
  - rewrite toWellFormed_eq.
    repeat case_match; cbn [length]; rewrite ?IH1, ?IH2; done.
Qed.

(** The transcoding adds no code unit but U+FFFD. *)
Lemma toWellFormed_elem c s : c ∈ JS.toWellFormed s → c ∈ s ∨ c = 65533.
Proof.
  induction s as [|x|x y l IH1 IH2] using list_pair_ind.
  - by intros ?%elem_of_nil.
  - rewrite toWellFormed_eq.
    repeat case_match; intros [->|?%elem_of_nil]%elem_of_cons; try done;
      (by right) || (left; left).
  - rewrite toWellFormed_eq. repeat case_match.
    + intros [->|[->|Hc]%elem_of_cons]%elem_of_cons.
      * left. left.
      * left. right. left.
      * destruct (IH1 Hc); [left; by do 2 right | by right].
    + intros [->|Hc]%elem_of_cons; [by right|].
      destruct (IH2 Hc); [left; by right | by right].
    + intros [->|Hc]%elem_of_cons; [by right|].
      destruct (IH2 Hc); [left; by right | by right].
    + intros [->|Hc]%elem_of_cons; [left; left|].
      destruct (IH2 Hc); [left; by right | by right].
Qed.

(** *** Well-formed documents stay well formed under the string
    operations of the tools *)

Lemma isWellFormed_app_inv_r a b :
  JS.isWellFormed a = true → JS.isWellFormed (a ++ b) = true →
  JS.isWellFormed b = true.
Proof. intros Ha. by rewrite isWellFormed_app. Qed.

Lemma isWellFormed_app_plain_r a h :
  Forall (λ c, JS.isSurrogate c = false) h →
  JS.isWellFormed (a ++ h) = JS.isWellFormed a.
Proof.
  intros H. destruct H as [|c h Hc H]; [by rewrite app_nil_r|].
  rewrite isWellFormed_split by done.
  by rewrite (plain_isWellFormed h), andb_true_r.
Qed.

Lemma isWellFormed_2 a b :
  JS.isWellFormed a = true → JS.isWellFormed b = true →
  JS.isWellFormed (a ++ b) = true.
Proof. intros Ha Hb. by rewrite isWellFormed_app. Qed.

Lemma trimStart_dropped s :
  ∃ ws, s = ws ++ JS.trimStart s ∧ Forall (λ c, JS.isWhiteSpace c = true) ws.
Proof.
  induction s as [|c s (ws & Hs & Hws)]; [by exists []|]. simpl.
  destruct (JS.isWhiteSpace c) eqn:E; [|by exists []].
  exists (c :: ws). split; [by rewrite Hs at 1 | by constructor].
Qed.

Lemma whiteSpace_plain ws :
  Forall (λ c, JS.isWhiteSpace c = true) ws →
  Forall (λ c, JS.isSurrogate c = false) ws.
Proof.
  intros H. eapply Forall_impl; [done|]. intros c. apply whiteSpace_not_surrogate.
Qed.

Lemma trimStart_isWellFormed s :
  JS.isWellFormed s = true → JS.isWellFormed (JS.trimStart s) = true.
Proof.
  destruct (trimStart_dropped s) as (ws & Hs & Hws). intros H.
  rewrite Hs in H. eapply isWellFormed_app_inv_r; [|done].
  by apply plain_isWellFormed, whiteSpace_plain.
Qed.

Lemma trimEnd_isWellFormed s :
  JS.isWellFormed s = true → JS.isWellFormed (JS.trimEnd s) = true.
Proof.
  unfold JS.trimEnd. destruct (trimStart_dropped (rev s)) as (ws & Hs & Hws).
  intros H. apply (f_equal (@rev N)) in Hs.
  rewrite rev_involutive, rev_app_distr in Hs.
  rewrite Hs, isWellFormed_app_plain_r in H; [done|].
  apply whiteSpace_plain, Forall_forall. intros c Hc%list_elem_of_In%in_rev%list_elem_of_In.
  by eapply Forall_forall in Hws.
Qed.

Lemma trim_isWellFormed s :
  JS.isWellFormed s = true → JS.isWellFormed (JS.trim s) = true.
Proof. intros H. by apply trimEnd_isWellFormed, trimStart_isWellFormed. Qed.

Lemma split_isWellFormed s :
  JS.isWellFormed s = true →
  Forall (λ l, JS.isWellFormed l = true) (JS.split nl s).
Proof.
  assert (∀ n s, length s = n → JS.isWellFormed s = true →
                 Forall (λ l, JS.isWellFormed l = true) (JS.split nl s)) as H;
    [|by apply (H (length s))].
  clear s. intros n. induction (lt_wf n) as [n _ IH]. intros s Hn Hs.
  destruct (decide (nl ∈ s)) as [Hin|Hout].
  - apply list_elem_of_split in Hin as (a & b & ->).
    assert (∃ a' b', a ++ nl :: b = a' ++ nl :: b' ∧ nl ∉ a') as (a' & b' & E & Ha').
    { clear. induction a as [|x a (a' & b' & E & Ha')].
      - exists [], b. split; [done | apply not_elem_of_nil].
      - destruct (decide (x = nl)) as [->|Hx].
        + exists [], (a ++ nl :: b). split; [done | apply not_elem_of_nil].
        + exists (x :: a'), b'. split; [simpl; by rewrite E|].
          by apply not_elem_of_cons. }
    rewrite E in *. clear E a b.
    rewrite isWellFormed_split in Hs by done.
    apply andb_true_iff in Hs as [Ha Hb].
    rewrite split_app_no_sep by done. constructor; [done|].
    apply (IH (length b')); [|done..].
    rewrite <- Hn, length_app. simpl. lia.
  - rewrite split_no_sep_id by done. by constructor.
Qed.

Lemma join_isWellFormed ls :
  Forall (λ l, JS.isWellFormed l = true) ls → JS.isWellFormed (JS.join nl ls) = true.
Proof.
  induction 1 as [|l ls Hl Hls IH]; [done|].
  destruct ls as [|l' ls]; [done|].
  change (JS.join nl (l :: l' :: ls)) with (l ++ nl :: JS.join nl (l' :: ls)).
  rewrite isWellFormed_split by done. by rewrite Hl, IH.
Qed.

End Utf8Facts.

(** ** Facts about the text store *)

Section StoreFacts.

Implicit Types (p : jsstring) (w : world).

(** The documents after a call that leaves the disk as it is, and after
    a write. *)
Lemma files_same w c t l : files (World (disk w) c t l) = files w.
Proof. done. Qed.

Lemma files_write w p doc c t l :
  files (World (<[p:=doc]> (disk w)) c t l)
  = <[p := JS.toWellFormed doc]> (files w).
Proof. unfold files. cbn [disk]. apply fmap_insert. Qed.

(** Every document of the store is well formed. *)
Lemma files_isWellFormed w p doc :
  files w !! p = Some doc → JS.isWellFormed doc = true.
Proof.
  unfold files. rewrite lookup_fmap. intros (c & _ & ->)%fmap_Some.
  apply toWellFormed_isWellFormed.
Qed.

Lemma or_empty_isWellFormed w p :
  JS.isWellFormed (JS.or_empty (files w !! p)) = true.
Proof.
  destruct (files w !! p) as [doc|] eqn:E; [|done].
  by apply files_isWellFormed in E.
Qed.

Lemma readFile_eq p w :
  readFile p w
  = (files w !! p,
     World (disk w) (clock w) (ticks w)
           (log w ++ read_events p (files w !! p))).
Proof.
  unfold readFile, bind, existsSync, readFileSync, ret, read_events. simpl.
  destruct (files w !! p) as [c|] eqn:E.
  - rewrite bool_decide_eq_true_2 by eauto. simpl.
    by rewrite files_same, E, <- app_assoc.
  - rewrite bool_decide_eq_false_2 by (intros [? ?]; done). done.
Qed.

Lemma writeFile_eq p c w :
  writeFile p c w
  = (WriteResult true None,
     World (<[p:=c]> (disk w)) (clock w) (ticks w) (log w ++ [EvWrite p c])).
Proof. done. Qed.

Lemma getMemory_eq w :
  getMemory w
  = (JS.or_empty (files w !! CONFIG.memoryFile),
     World (disk w) (clock w) (ticks w)
           (log w ++ read_events CONFIG.memoryFile (files w !! CONFIG.memoryFile))).
Proof. unfold getMemory, bind. by rewrite readFile_eq. Qed.

End StoreFacts.

(** ** The memory log *)

Section MemoryLog.

Implicit Types (w : world) (entry : jsstring) (category : option jsstring).

Lemma addMemory_eq entry category w :
  let prior := JS.or_empty (files w !! CONFIG.memoryFile) in
  let cat := default (js "General") category in
  let ts := clock w (ticks w) in
  let doc := prior ++ nl :: js "## " ++ cat ++ nl :: js "- **" ++ ts ++ js "**: " ++ entry in
  addMemory entry category w
  = (AddMemoryResult true entry cat ts,
     World (<[CONFIG.memoryFile := doc]> (disk w)) (clock w) (S (ticks w))
           (log w ++ read_events CONFIG.memoryFile (files w !! CONFIG.memoryFile)
                  ++ [EvWrite CONFIG.memoryFile doc])).
Proof.
  unfold addMemory, bind. destruct category as [cat|]; simpl;
    rewrite getMemory_eq; simpl; by rewrite <- app_assoc.
Qed.

(** C8, as far as the program goes.  [add_memory] makes one
    [writeFileSync], of the prior content followed by the new section, to
    the memory file.  The file is UTF-8: a following [get_memory] returns
    the prior content, which is a prefix of the new document, followed by
    the section with every lone surrogate replaced by U+FFFD.  When the section has no lone surrogate
    the document is the prior content followed by the section itself, and
    when the timestamped line has none the document contains it. *)
Theorem add_memory_append_only entry category w :
  let prior := run getMemory w in
  let r := run (addMemory entry category) w in
  let w' := exec (addMemory entry category) w in
  let stamped := js "- **" ++ am_timestamp r ++ js "**: " ++ entry in
  let section := nl :: js "## " ++ am_category r ++ nl :: stamped in
  am_success r = true
  ∧ am_entry r = entry
  ∧ am_category r = default (js "General") category
  ∧ files w' = <[CONFIG.memoryFile := prior ++ JS.toWellFormed section]> (files w)
  ∧ writes_between w w' = [EvWrite CONFIG.memoryFile (prior ++ section)]
  ∧ run getMemory w' = prior ++ JS.toWellFormed section
  ∧ prior `prefix_of` run getMemory w'
  ∧ JS.includes (run getMemory w') (JS.toWellFormed stamped) = true
  ∧ (JS.isWellFormed section = true → run getMemory w' = prior ++ section)
  ∧ (JS.isWellFormed stamped = true →
     JS.includes (run getMemory w') stamped = true).
Proof.
  unfold run, exec. rewrite addMemory_eq, !getMemory_eq. cbn [fst snd].
  cbn [am_success am_entry am_category am_timestamp].
  rewrite files_write, lookup_insert_eq. cbn [JS.or_empty default].
  set (prior := JS.or_empty (files w !! CONFIG.memoryFile)).
  set (cat := default (js "General") category).
  set (stamped := js "- **" ++ clock w (ticks w) ++ js "**: " ++ entry).
  assert (JS.isWellFormed prior = true) as Hprior by apply or_empty_isWellFormed.
  rewrite (toWellFormed_app prior) by done.
  assert (JS.toWellFormed (nl :: js "## " ++ cat ++ nl :: stamped)
          = JS.toWellFormed (nl :: js "## " ++ cat) ++ nl :: JS.toWellFormed stamped)
    as Hsection.
  { change (nl :: js "## " ++ cat ++ nl :: stamped)
      with ((nl :: js "## " ++ cat) ++ nl :: stamped).
    by apply toWellFormed_split. }
  assert (JS.includes
            (prior ++ JS.toWellFormed (nl :: js "## " ++ cat ++ nl :: stamped))
            (JS.toWellFormed stamped) = true) as Hincl.
  { apply includes_infix.
    exists (prior ++ JS.toWellFormed (nl :: js "## " ++ cat) ++ [nl]), [].
    rewrite Hsection, app_nil_r, <- !app_assoc. done. }
  split_and!; try done.
  - unfold writes_between. cbn [log]. rewrite drop_app_length.
    by destruct (files w !! CONFIG.memoryFile).
  - by eexists.
  - intros Hwf. by rewrite toWellFormed_id.
  - intros Hwf. by rewrite (toWellFormed_id stamped) in Hincl.
Qed.

End MemoryLog.

(** ** Search *)

Section Search.

Lemma slice_0 {A} (n : Z) (l : list A) :
  (0 ≤ n)%Z → JS.slice 0 n l = take (Z.to_nat n) l.
Proof.
  intros Hn. unfold JS.slice, JS.clamp_index. simpl.
  destruct (Z.ltb_spec n 0) as [?|_]; [lia|].
  replace (Z.to_nat (Z.min 0 (Z.of_nat (length l)))) with 0%nat by lia.
  rewrite Nat.sub_0_r, drop_0.
  destruct (Z.le_gt_cases n (Z.of_nat (length l))).
  - by rewrite Z.min_l.
  - rewrite Z.min_r, Nat2Z.id, firstn_all by lia.
    symmetry. apply take_ge. lia.
Qed.






Lemma searchMemory_empty_eq w :
  searchMemory [] w
  = (NoQuery [] (js "No query provided"),
     World (disk w) (clock w) (ticks w)
           (log w ++ read_events CONFIG.memoryFile (files w !! CONFIG.memoryFile))).
Proof. unfold searchMemory, bind. by rewrite getMemory_eq. Qed.

(** C2, as far as the program goes.  With an empty query [search_memory]
    returns the fixed no-query response whatever the store holds, the
    same in any two worlds, and writes nothing; the only file-system
    calls are those of one [readFile] of the memory file, made before
    the query is looked at. *)
Theorem search_empty_query_fixed (w1 w2 : world) :
  run (searchMemory []) w1 = NoQuery [] (js "No query provided")
  ∧ run (searchMemory []) w1 = run (searchMemory []) w2
  ∧ files (exec (searchMemory []) w1) = files w1
  ∧ log (exec (searchMemory []) w1)
    = log w1 ++ read_events CONFIG.memoryFile (files w1 !! CONFIG.memoryFile)
  ∧ writes_between w1 (exec (searchMemory []) w1) = [].
Proof.
  unfold run, exec. rewrite !searchMemory_empty_eq. simpl.
  split_and!; try done.
  unfold writes_between. cbn [log]. rewrite drop_app_length.
  by destruct (files w1 !! CONFIG.memoryFile).
Qed.

End Search.

(** ** Daily notes and TODO items *)

Section Notes.

Implicit Types (w : world) (d entry todo todoText doc : jsstring).

Lemma getDailyNote_eq d w :
  getDailyNote (Some d) w
  = (if JS.falsy (files w !! note_path d) then DailyNote false d None
     else DailyNote true d (files w !! note_path d),
     read_world (note_path d) w).
Proof.
  unfold getDailyNote, bind. simpl. rewrite readFile_eq.
  by destruct (JS.falsy _).
Qed.

Lemma addDailyNote_eq entry d w :
  let ts := clock w (ticks w) in
  let doc := JS.or_empty (files w !! note_path d)
             ++ js "- **" ++ ts ++ js "**: " ++ entry ++ [nl] in
  addDailyNote entry (Some d) w
  = (AddDailyNoteResult true d entry ts,
     World (<[note_path d := doc]> (disk w)) (clock w) (S (ticks w))
           (log w ++ read_events (note_path d) (files w !! note_path d)
                  ++ [EvWrite (note_path d) doc])).
Proof.
  unfold addDailyNote, bind. simpl. rewrite readFile_eq. simpl.
  by rewrite <- app_assoc.
Qed.

Lemma addTODO_eq todo d w :
  let doc := with_todo todo (JS.or_empty (files w !! note_path d)) in
  addTODO todo (Some d) w
  = (AddTodoResult true d todo,
     World (<[note_path d := doc]> (disk w)) (clock w) (ticks w)
           (log w ++ read_events (note_path d) (files w !! note_path d)
                  ++ [EvWrite (note_path d) doc])).
Proof.
  unfold addTODO, bind. simpl. rewrite readFile_eq. simpl.
  by rewrite <- app_assoc.
Qed.

Lemma getTODOs_eq d w :
  getTODOs (Some d) w
  = (if JS.falsy (files w !! note_path d) then TodosResult [] d None
     else let items := todo_items (JS.split nl (JS.or_empty (files w !! note_path d))) in
          TodosResult items d (Some (length items)),
     read_world (note_path d) w).
Proof.
  unfold getTODOs, bind. simpl. rewrite getDailyNote_eq.
  by destruct (JS.falsy _).
Qed.

Lemma completeTODO_eq todoText d w :
  completeTODO todoText (Some d) w
  = if JS.falsy (files w !! note_path d)
    then (NoteNotFound (js "Daily note not found"), read_world (note_path d) w)
    else
      let lines := JS.split nl (JS.or_empty (files w !! note_path d)) in
      if (complete_loop todoText lines).2
      then
        let doc := JS.join nl (complete_loop todoText lines).1 in
        (Completed true todoText true,
         World (<[note_path d := doc]> (disk w)) (clock w) (ticks w)
               (log w ++ read_events (note_path d) (files w !! note_path d)
                      ++ [EvWrite (note_path d) doc]))
      else (TodoNotFound (js "TODO not found") todoText,
            read_world (note_path d) w).
Proof.
  unfold completeTODO, bind. simpl. rewrite readFile_eq.
  destruct (JS.falsy _); [done|]. simpl.
  destruct (complete_loop _ _) as [lines' [|]]; simpl; [|done].
  by rewrite <- app_assoc.
Qed.

(** *** The loop of [completeTODO] *)

Lemma flip_marker_replace l :
  is_pending l = true →
  JS.replace (JS.trim l) CONFIG.todoMarker CONFIG.doneMarker = flip_marker l.
Proof. intros H. by rewrite replace_startsWith. Qed.

Lemma complete_loop_cons todoText x rest :
  complete_loop todoText (x :: rest)
  = if pending_match todoText x
    then (JS.replace (JS.trim x) CONFIG.todoMarker CONFIG.doneMarker :: rest, true)
    else ((x :: (complete_loop todoText rest).1), (complete_loop todoText rest).2).
Proof.
  change (complete_loop todoText (x :: rest)) with
    (if pending_match todoText x
     then (JS.replace (JS.trim x) CONFIG.todoMarker CONFIG.doneMarker :: rest, true)
     else let '(rest', found) := complete_loop todoText rest in (x :: rest', found)).
  by destruct (complete_loop todoText rest).
Qed.

Lemma complete_loop_found todoText lines i l :
  first_match (pending_match todoText) lines i l →
  complete_loop todoText lines = (<[i := flip_marker l]> lines, true).
Proof.
  revert i. induction lines as [|x rest IH]; intros i (Hi & Hl & Hfirst).
  - by rewrite lookup_nil in Hi.
  - rewrite complete_loop_cons.
    destruct i as [|i]; simpl in Hi.
    + injection Hi as ->. rewrite Hl. simpl.
      rewrite flip_marker_replace; [done|].
      unfold pending_match in Hl. by apply andb_true_iff in Hl as [? _].
    + rewrite (Hfirst 0%nat x) by (simpl; done || lia).
      rewrite (IH i); [done|]. split_and!; [done..|].
      intros j l' Hj Hl'. apply (Hfirst (S j) l'); [lia | done].
Qed.

Lemma complete_loop_not_found todoText lines :
  (complete_loop todoText lines).2 = false
  ↔ ∀ l, l ∈ lines → pending_match todoText l = false.
Proof.
  induction lines as [|x rest IH].
  - split; [by intros _ l ?%elem_of_nil | done].
  - rewrite complete_loop_cons.
    destruct (pending_match todoText x) eqn:E; simpl.
    + split; [done|]. intros H. rewrite <- E. apply H. left.
    + rewrite IH. split.
      * intros H l [->|?]%elem_of_cons; auto.
      * intros H l Hl. apply H. by right.
Qed.

Lemma complete_loop_unchanged todoText lines :
  (complete_loop todoText lines).2 = false →
  (complete_loop todoText lines).1 = lines.
Proof.
  induction lines as [|x rest IH]; [done|].
  rewrite complete_loop_cons. destruct (pending_match todoText x); [done|].
  simpl. intros H. by rewrite IH.
Qed.

Lemma flip_marker_no_nl l : nl ∉ l → nl ∉ flip_marker l.
Proof.
  intros Hl. unfold flip_marker. rewrite not_elem_of_app. split.
  - intros H. repeat (apply elem_of_cons in H as [H|H]; [discriminate|]).
    by apply elem_of_nil in H.
  - intros H. apply Hl, trim_elem. eapply elem_of_sublist; [done|].
    apply sublist_drop.
Qed.

Lemma first_match_exists (P : jsstring → bool) (lines : list jsstring) :
  (∃ l, l ∈ lines ∧ P l = true) → ∃ i l, first_match P lines i l.
Proof.
  induction lines as [|x rest IH]; intros (l & Hin & HP).
  - by apply elem_of_nil in Hin.
  - destruct (P x) eqn:Ex.
    + exists 0%nat, x. split_and!; [done..|]. intros; lia.
    + apply elem_of_cons in Hin as [->|Hin]; [congruence|].
      destruct IH as (i & l0 & Hi & Hl0 & Hfirst); [by eauto|].
      exists (S i), l0. split_and!; [done..|].
      intros [|j] l' Hj Hl'; simpl in Hl'; [congruence|].
      apply (Hfirst j); [lia | done].
Qed.

(** *** The items of [getTODOs] *)

Lemma todo_items_elem_gen (h : nat → nat) (lines : list jsstring) item :
  item ∈ List.map
           (λ '(line, idx),
              TodoItem (JS.trim (JS.substring 4 (JS.trim line)))
                       (JS.startsWith (JS.trim line) CONFIG.doneMarker) idx)
           (List.filter (λ '(line, idx), is_todo_line line)
              (imap (λ (idx : nat) (line : jsstring), (line, h idx)) lines))
  ↔ ∃ i l, lines !! i = Some l ∧ is_todo_line l = true
           ∧ item = TodoItem (JS.trim (JS.substring 4 (JS.trim l)))
                             (JS.startsWith (JS.trim l) CONFIG.doneMarker) (h i).
Proof.
  revert h. induction lines as [|x rest IH]; intros h.
  - split; [by intros ?%elem_of_nil | by intros (i & l & ? & _)].
  - cbn [imap List.filter]. specialize (IH (h ∘ S)).
    assert (Hrest : (∃ i l, (x :: rest) !! i = Some l ∧ is_todo_line l = true
                 ∧ item = TodoItem (JS.trim (JS.substring 4 (JS.trim l)))
                             (JS.startsWith (JS.trim l) CONFIG.doneMarker) (h i))
            ↔ (is_todo_line x = true
               ∧ item = TodoItem (JS.trim (JS.substring 4 (JS.trim x)))
                             (JS.startsWith (JS.trim x) CONFIG.doneMarker) (h 0%nat))
              ∨ ∃ i l, rest !! i = Some l ∧ is_todo_line l = true
                 ∧ item = TodoItem (JS.trim (JS.substring 4 (JS.trim l)))
                             (JS.startsWith (JS.trim l) CONFIG.doneMarker) ((h ∘ S) i)).
    { split.
      - intros ([|i] & l & Hi & Hl & ->); simpl in Hi.
        + injection Hi as ->. by left.
        + right. by exists i, l.
      - intros [[Hx ->]|(i & l & Hi & Hl & ->)].
        + by exists 0%nat, x.
        + by exists (S i), l. }
    rewrite Hrest, <- IH. clear Hrest IH.
    destruct (is_todo_line x) eqn:Ex; cbn [List.map].
    + rewrite elem_of_cons. split.
      * intros [->|?]; [by left | by right].
      * intros [[_ ->]|?]; [by left | by right].
    + split; [by right|]. by intros [[? _]|?].
Qed.

Lemma todo_items_elem (lines : list jsstring) item :
  item ∈ todo_items lines
  ↔ ∃ i l, lines !! i = Some l ∧ is_todo_line l = true
           ∧ item = TodoItem (JS.trim (JS.substring 4 (JS.trim l)))
                             (JS.startsWith (JS.trim l) CONFIG.doneMarker) i.
Proof. apply (todo_items_elem_gen id). Qed.

Lemma flip_marker_done l :
  JS.startsWith (JS.trim (flip_marker l)) CONFIG.doneMarker = true.
Proof.
  apply startsWith_prefix.
  apply (trim_keeps_marker 91 [120] 93 (drop 3 (JS.trim l))); done.
Qed.

(** *** A successful [completeTODO] *)

Lemma completeTODO_flip todoText d w doc i l :
  files w !! note_path d = Some doc →
  first_match (pending_match todoText) (JS.split nl doc) i l →
  let doc' := JS.join nl (<[i := flip_marker l]> (JS.split nl doc)) in
  completeTODO todoText (Some d) w
  = (Completed true todoText true,
     World (<[note_path d := doc']> (disk w)) (clock w) (ticks w)
           (log w ++ read_events (note_path d) (Some doc)
                  ++ [EvWrite (note_path d) doc']))
  ∧ JS.split nl doc' = <[i := flip_marker l]> (JS.split nl doc).
Proof.
  intros Hdoc Hfirst doc'. rewrite completeTODO_eq, Hdoc.
  assert (doc ≠ []) as Hne.
  { intros ->. destruct Hfirst as (Hi & Hl & _).
    destruct i as [|i]; simpl in Hi; [|by rewrite lookup_nil in Hi].
    by injection Hi as <-. }
  destruct doc as [|c doc]; [done|]. cbn [JS.falsy].
  change (JS.or_empty (Some (c :: doc))) with (c :: doc).
  rewrite (complete_loop_found _ _ i l Hfirst). cbn [fst snd].
  split; [done|]. subst doc'. apply split_join.
  - intros H. apply (f_equal length) in H. rewrite length_insert in H.
    destruct (JS.split nl (c :: doc)) eqn:E; [by apply split_nonempty in E | done].
  - apply Forall_insert; [apply split_no_sep|].
    apply flip_marker_no_nl. destruct Hfirst as (Hi & _).
    eapply (Forall_lookup_1 _ _ _ _ (split_no_sep nl (c :: doc)) Hi).
Qed.

(** The document [completeTODO] writes is made of the document it read:
    it has no lone surrogate and is read back as written. *)
Lemma flip_marker_isWellFormed l :
  is_pending l = true → JS.isWellFormed l = true →
  JS.isWellFormed (flip_marker l) = true.
Proof.
  intros [k Hk]%startsWith_prefix Hl%trim_isWellFormed.
  unfold flip_marker. rewrite Hk in *.
  change (drop 3 (CONFIG.todoMarker ++ k)) with k.
  apply isWellFormed_2; [done|].
  by apply (isWellFormed_app_inv_r CONFIG.todoMarker k).
Qed.

Lemma flipped_isWellFormed todoText d w doc i l :
  files w !! note_path d = Some doc →
  first_match (pending_match todoText) (JS.split nl doc) i l →
  JS.toWellFormed (JS.join nl (<[i := flip_marker l]> (JS.split nl doc)))
  = JS.join nl (<[i := flip_marker l]> (JS.split nl doc)).
Proof.
  intros Hdoc%files_isWellFormed%split_isWellFormed (Hi & Hl & _).
  apply toWellFormed_id, join_isWellFormed, Forall_insert; [done|].
  apply flip_marker_isWellFormed.
  - unfold pending_match in Hl. by apply andb_true_iff in Hl as [? _].
  - by eapply (Forall_lookup_1 _ _ _ _ Hdoc).
Qed.

(** C4, as far as the program goes.  When some line of the note is a
    pending line whose trimmed form contains [todoText], [complete_todo]
    succeeds and rewrites the first such line only: every other line of
    the document is unchanged, and the rewritten line is the trimmed form
    of the old one with the done marker in place of the pending marker
    (white space around the old line is not kept). *)
Theorem complete_todo_flips_first todoText d w doc :
  files w !! note_path d = Some doc →
  (∃ l, l ∈ JS.split nl doc ∧ pending_match todoText l = true) →
  ∃ i l doc',
    first_match (pending_match todoText) (JS.split nl doc) i l
    ∧ run (completeTODO todoText (Some d)) w = Completed true todoText true
    ∧ files (exec (completeTODO todoText (Some d)) w)
      = <[note_path d := doc']> (files w)
    ∧ JS.trim l = CONFIG.todoMarker ++ drop 3 (JS.trim l)
    ∧ JS.split nl doc' !! i = Some (CONFIG.doneMarker ++ drop 3 (JS.trim l))
    ∧ length (JS.split nl doc') = length (JS.split nl doc)
    ∧ ∀ j, j ≠ i → JS.split nl doc' !! j = JS.split nl doc !! j.
Proof.
  intros Hdoc Hex.
  destruct (first_match_exists _ _ Hex) as (i & l & Hfirst).
  destruct (completeTODO_flip todoText d w doc i l Hdoc Hfirst) as [Heq Hsplit].
  exists i, l, (JS.join nl (<[i := flip_marker l]> (JS.split nl doc))).
  unfold run, exec. rewrite Heq, Hsplit. cbn [fst snd].
  rewrite files_write, (flipped_isWellFormed todoText d w doc i l Hdoc Hfirst).
  destruct Hfirst as (Hi & Hl & Hbefore).
  split_and!; try done.
  - unfold pending_match in Hl. apply andb_true_iff in Hl as [Hp _].
    apply startsWith_prefix in Hp as [k Hk]. by rewrite Hk at 1 2.
  - apply list_lookup_insert_eq. by eapply lookup_lt_Some.
  - apply length_insert.
  - intros j Hj. by apply list_lookup_insert_ne.
Qed.

(** C10. When some line of the note is a pending line, [complete_todo]
    with the empty text succeeds and flips the first pending line: the
    stored line starts with the done marker and [get_todos] then reports
    that line as done. *)
Theorem complete_todo_empty_text d w doc :
  files w !! note_path d = Some doc →
  (∃ l, l ∈ JS.split nl doc ∧ is_pending l = true) →
  let w' := exec (completeTODO [] (Some d)) w in
  ∃ i l doc',
    first_match is_pending (JS.split nl doc) i l
    ∧ run (completeTODO [] (Some d)) w = Completed true [] true
    ∧ files w' !! note_path d = Some doc'
    ∧ JS.split nl doc' = <[i := flip_marker l]> (JS.split nl doc)
    ∧ JS.startsWith (JS.trim (flip_marker l)) CONFIG.doneMarker = true
    ∧ ∃ item, item ∈ todos (run (getTODOs (Some d)) w')
              ∧ line item = i ∧ done item = true.
Proof.
  intros Hdoc Hex w'.
  destruct (first_match_exists _ _ Hex) as (i & l & Hi & Hl & Hbefore).
  assert (Hfirst : first_match (pending_match []) (JS.split nl doc) i l).
  { unfold first_match, pending_match. split_and!; [done|..].
    - by rewrite Hl, includes_nil.
    - intros j l' Hj Hl'. by rewrite (Hbefore j l' Hj Hl'). }
  destruct (completeTODO_flip [] d w doc i l Hdoc Hfirst) as [Heq Hsplit].
  pose proof (flipped_isWellFormed [] d w doc i l Hdoc Hfirst) as Hwf.
  remember (JS.join nl (<[i := flip_marker l]> (JS.split nl doc))) as doc' eqn:Edoc.
  exists i, l, doc'. subst w'. unfold run, exec. rewrite Heq. cbn [fst snd].
  rewrite files_write, Hwf, lookup_insert_eq.
  split_and!; try done; [apply flip_marker_done|].
  rewrite getTODOs_eq. cbn [fst]. rewrite files_write, Hwf, lookup_insert_eq.
  assert (Hline : JS.split nl doc' !! i = Some (flip_marker l)).
  { rewrite Hsplit. apply list_lookup_insert_eq. by eapply lookup_lt_Some. }
  assert (doc' ≠ []) as Hne.
  { intros E. rewrite E in Hline.
    destruct i; simpl in Hline; [discriminate | by rewrite lookup_nil in Hline]. }
  destruct doc' as [|c doc']; [done|]. cbn [JS.falsy todos].
  exists (TodoItem (JS.trim (JS.substring 4 (JS.trim (flip_marker l))))
                   (JS.startsWith (JS.trim (flip_marker l)) CONFIG.doneMarker) i).
  split_and!; [|done|apply flip_marker_done].
  apply todo_items_elem. exists i, (flip_marker l). split_and!; [done| |done].
  unfold is_todo_line. by rewrite flip_marker_done, orb_true_r.
Qed.

(** *** A failed [completeTODO] *)

Lemma completeTODO_failure_frame todoText d w :
  match run (completeTODO todoText (Some d)) w with
  | Completed _ _ _ => True
  | _ => exec (completeTODO todoText (Some d)) w = read_world (note_path d) w
  end.
Proof.
  unfold run, exec. rewrite completeTODO_eq.
  destruct (JS.falsy _); [done|]. cbv zeta.
  by destruct (complete_loop _ _).2.
Qed.

Lemma completeTODO_absent todoText d w :
  files w !! note_path d = None →
  run (completeTODO todoText (Some d)) w = NoteNotFound (js "Daily note not found").
Proof. intros H. unfold run. by rewrite completeTODO_eq, H. Qed.

Lemma completeTODO_empty_note todoText d w :
  files w !! note_path d = Some [] →
  run (completeTODO todoText (Some d)) w = NoteNotFound (js "Daily note not found").
Proof. intros H. unfold run. by rewrite completeTODO_eq, H. Qed.

Lemma completeTODO_no_match todoText d w doc :
  files w !! note_path d = Some doc → doc ≠ [] →
  (∀ l, l ∈ JS.split nl doc → pending_match todoText l = false) →
  run (completeTODO todoText (Some d)) w
  = TodoNotFound (js "TODO not found") todoText.
Proof.
  intros H Hne Hno. unfold run. rewrite completeTODO_eq, H.
  destruct doc as [|c doc]; [done|]. cbn [JS.falsy]. cbv zeta.
  change (JS.or_empty (Some (c :: doc))) with (c :: doc).
  apply complete_loop_not_found in Hno. by rewrite Hno.
Qed.

(** *** Reading a note *)

Lemma getDailyNote_absent d w :
  files w !! note_path d = None →
  run (getDailyNote (Some d)) w = DailyNote false d None.
Proof. intros H. unfold run. by rewrite getDailyNote_eq, H. Qed.

Lemma getDailyNote_empty d w :
  files w !! note_path d = Some [] →
  run (getDailyNote (Some d)) w = DailyNote false d None.
Proof. intros H. unfold run. by rewrite getDailyNote_eq, H. Qed.

(** The documents after [addDailyNote], [addMemory] and [addTODO]: the
    prior document, which the transcoding leaves as it is, followed by
    what is added as the file holds it. *)
Lemma addDailyNote_files entry d w :
  files (exec (addDailyNote entry (Some d)) w)
  = <[note_path d := JS.or_empty (files w !! note_path d)
                     ++ JS.toWellFormed (note_line (clock w (ticks w)) entry)]>
      (files w).
Proof.
  unfold exec. rewrite addDailyNote_eq. cbn [snd]. rewrite files_write.
  by rewrite toWellFormed_app by apply or_empty_isWellFormed.
Qed.

Lemma todo_bullet_toWellFormed todo :
  JS.toWellFormed (todo_bullet todo) = todo_bullet (JS.toWellFormed todo).
Proof.
  unfold todo_bullet. rewrite !app_assoc.
  rewrite (toWellFormed_plain_r _ [nl]) by (by repeat constructor).
  rewrite <- !app_assoc.
  change (js "- " ++ CONFIG.todoMarker ++ js " " ++ todo)
    with (js "- [ ] " ++ todo).
  by rewrite toWellFormed_plain_l by apply js_plain.
Qed.

Lemma with_todo_toWellFormed todo prior :
  JS.isWellFormed prior = true →
  JS.toWellFormed (with_todo todo prior) = with_todo (JS.toWellFormed todo) prior.
Proof.
  intros Hprior. unfold with_todo.
  change (js "- " ++ CONFIG.todoMarker ++ js " " ++ todo ++ [nl])
    with (todo_bullet todo).
  change (js "- " ++ CONFIG.todoMarker ++ js " " ++ JS.toWellFormed todo ++ [nl])
    with (todo_bullet (JS.toWellFormed todo)).
  rewrite toWellFormed_app, todo_bullet_toWellFormed; [done|].
  destruct (negb _); [|done].
  rewrite isWellFormed_app by done.
  apply (plain_isWellFormed (nl :: js "## TODOs" ++ [nl])).
  constructor; [done|]. apply Forall_app. split; [apply js_plain | by constructor].
Qed.

Lemma addTODO_files todo d w :
  files (exec (addTODO todo (Some d)) w)
  = <[note_path d := with_todo (JS.toWellFormed todo)
                       (JS.or_empty (files w !! note_path d))]> (files w).
Proof.
  unfold exec. rewrite addTODO_eq. cbn [snd]. rewrite files_write.
  by rewrite with_todo_toWellFormed by apply or_empty_isWellFormed.
Qed.

Lemma toWellFormed_no_nl s : nl ∉ s → nl ∉ JS.toWellFormed s.
Proof. intros Hs [?|?]%toWellFormed_elem; done. Qed.

Lemma getDailyNote_after_add entry d w :
  let r := run (addDailyNote entry (Some d)) w in
  let w' := exec (addDailyNote entry (Some d)) w in
  run (getDailyNote (Some d)) w'
  = DailyNote true d
      (Some (JS.or_empty (files w !! note_path d)
             ++ JS.toWellFormed (note_line (an_timestamp r) entry))).
Proof.
  intros r w'. subst r w'. unfold run at 1. rewrite getDailyNote_eq. cbn [fst].
  rewrite addDailyNote_files, lookup_insert_eq.
  unfold run. rewrite addDailyNote_eq. cbn [fst an_timestamp].
  destruct (JS.or_empty (files w !! note_path d)
            ++ JS.toWellFormed (note_line (clock w (ticks w)) entry)) eqn:E; [|done].
  apply (f_equal length) in E. rewrite length_app, toWellFormed_length in E.
  unfold note_line in E. rewrite !length_app in E. simpl in E. lia.
Qed.

(** *** Listing the TODO items *)

Lemma getTODOs_absent d w :
  JS.falsy (files w !! note_path d) = true →
  run (getTODOs (Some d)) w = TodosResult [] d None.
Proof. intros H. unfold run. by rewrite getTODOs_eq, H. Qed.

Lemma getTODOs_items d w doc :
  files w !! note_path d = Some doc → doc ≠ [] →
  ∃ items,
    run (getTODOs (Some d)) w = TodosResult items d (Some (length items))
    ∧ ∀ item, item ∈ items ↔
        ∃ i l, JS.split nl doc !! i = Some l
               ∧ is_todo_line l = true
               ∧ item = TodoItem (JS.trim (JS.substring 4 (JS.trim l)))
                                 (JS.startsWith (JS.trim l) CONFIG.doneMarker) i.
Proof.
  intros H Hne. exists (todo_items (JS.split nl doc)).
  unfold run. rewrite getTODOs_eq, H.
  destruct doc as [|c doc]; [done|]. split; [done|]. apply todo_items_elem.
Qed.

(** An item added by [addTODO] to a note that was absent or empty is on a
    line that starts with a dash, which [getTODOs] does not select. *)
Lemma addTODO_line_not_selected todo :
  is_todo_line (js "- " ++ CONFIG.todoMarker ++ js " " ++ todo) = false.
Proof.
  unfold is_todo_line.
  destruct (trim_head 45 (32 :: CONFIG.todoMarker ++ js " " ++ todo)) as [t Ht]; [done|].
  change (js "- " ++ CONFIG.todoMarker ++ js " " ++ todo)
    with (45 :: 32 :: CONFIG.todoMarker ++ js " " ++ todo).
  by rewrite Ht.
Qed.

Lemma addTODO_then_getTODOs_fresh todo d w :
  JS.falsy (files w !! note_path d) = true → nl ∉ todo →
  run (getTODOs (Some d)) (exec (addTODO todo (Some d)) w)
  = TodosResult [] d (Some 0%nat).
Proof.
  intros Hfresh Hnl%toWellFormed_no_nl. unfold run.
  rewrite getTODOs_eq. cbn [fst]. rewrite addTODO_files, lookup_insert_eq.
  assert (JS.or_empty (files w !! note_path d) = []) as ->.
  { by destruct (files w !! note_path d) as [[|??]|]. }
  revert Hnl. generalize (JS.toWellFormed todo). clear todo. intros todo Hnl.
  assert (JS.split nl (with_todo todo [])
          = [[]; js "## TODOs"; js "- " ++ CONFIG.todoMarker ++ js " " ++ todo; []])
    as Hlines.
  { change (with_todo todo [])
      with ([] ++ nl :: js "## TODOs" ++ nl
               :: (js "- " ++ CONFIG.todoMarker ++ js " " ++ todo ++ [nl])).
    rewrite split_app_no_sep by apply not_elem_of_nil.
    rewrite split_app_no_sep.
    2:{ intros H. repeat (apply elem_of_cons in H as [H|H]; [discriminate|]).
        by apply elem_of_nil in H. }
    rewrite !app_assoc, split_app_no_sep.
    - by rewrite <- !app_assoc.
    - rewrite !not_elem_of_app. split_and!; [| |  |done];
        intros H; repeat (apply elem_of_cons in H as [H|H]; [discriminate|]);
        by apply elem_of_nil in H. }
  assert (todo_items (JS.split nl (with_todo todo [])) = []) as Hitems.
  { apply elem_of_nil_inv. intros item (i & l & Hi & Hl & _)%todo_items_elem.
    rewrite Hlines in Hi. apply list_elem_of_lookup_2 in Hi.
    repeat (apply elem_of_cons in Hi as [->|Hi]); [done|done| |done|by apply elem_of_nil in Hi].
    by rewrite addTODO_line_not_selected in Hl. }
  destruct (with_todo todo []) eqn:E; [done|]. cbn [JS.falsy].
  change (JS.or_empty (Some (n :: l))) with (n :: l). by rewrite Hitems.
Qed.

Lemma no_pending_match_true todoText doc :
  no_pending_match todoText doc = true
  ↔ ∀ l, l ∈ JS.split nl doc → pending_match todoText l = false.
Proof.
  unfold no_pending_match. rewrite forallb_forall. split.
  - intros H l Hl%list_elem_of_In. apply negb_true_iff. by apply H.
  - intros H l Hl%list_elem_of_In. apply negb_true_iff. by apply H.
Qed.

Lemma no_pending_match_false todoText doc :
  no_pending_match todoText doc = false →
  ∃ l, l ∈ JS.split nl doc ∧ pending_match todoText l = true.
Proof.
  unfold no_pending_match. induction (JS.split nl doc) as [|x rest IH]; simpl; [done|].
  destruct (pending_match todoText x) eqn:E; simpl.
  - intros _. exists x. split; [left | done].
  - intros (l & Hl & Hm)%IH. exists l. split; [by right | done].
Qed.

Lemma read_world_writes p w : writes_between w (read_world p w) = [].
Proof.
  unfold writes_between, read_world. cbn [log].
  rewrite drop_app_length. by destruct (files w !! p).
Qed.

(** C5, as far as the program goes.  A failing [complete_todo] writes
    nothing and leaves the store as it was.  It fails with "Daily note not
    found" when the note is absent or empty, and with "TODO not found"
    when the note is not empty and no pending line contains the text;
    otherwise it succeeds. *)
Theorem complete_todo_failure_atomic todoText d w :
  let r := run (completeTODO todoText (Some d)) w in
  let w' := exec (completeTODO todoText (Some d)) w in
  match files w !! note_path d with
  | None | Some [] =>
      r = NoteNotFound (js "Daily note not found")
      ∧ files w' = files w ∧ writes_between w w' = []
  | Some doc =>
      if no_pending_match todoText doc
      then r = TodoNotFound (js "TODO not found") todoText
           ∧ files w' = files w ∧ writes_between w w' = []
      else r = Completed true todoText true
  end.
Proof.
  intros r w'. subst r w'.
  pose proof (completeTODO_failure_frame todoText d w) as Hframe.
  destruct (files w !! note_path d) as [doc|] eqn:Hdoc.
  - destruct doc as [|c doc].
    + rewrite (completeTODO_empty_note _ _ _ Hdoc) in *. rewrite Hframe.
      split_and!; [done..|]. apply read_world_writes.
    + destruct (no_pending_match todoText (c :: doc)) eqn:Hno.
      * pose proof (proj1 (no_pending_match_true _ _) Hno) as Hnone.
        rewrite (completeTODO_no_match _ _ _ _ Hdoc) in * by done.
        rewrite Hframe. split_and!; [done..|]. apply read_world_writes.
      * apply no_pending_match_false, first_match_exists in Hno as (i & l & Hfirst).
        destruct (completeTODO_flip todoText d w _ i l Hdoc Hfirst) as [Heq _].
        unfold run. by rewrite Heq.
  - rewrite (completeTODO_absent _ _ _ Hdoc) in *. rewrite Hframe.
    split_and!; [done..|]. apply read_world_writes.
Qed.

(** C6, as far as the program goes.  [get_daily_note] reports a note as
    not existing, with [content] null, when its file is absent or empty,
    and as existing with its content otherwise; after [add_daily_note] on
    the date it reports the note as existing.  The file is UTF-8: the
    content contains the line appended with every lone surrogate
    replaced by U+FFFD, which is the line itself when it has none. *)
Theorem get_daily_note_reports entry d w :
  let r := run (addDailyNote entry (Some d)) w in
  let w' := exec (addDailyNote entry (Some d)) w in
  let appended := js "- **" ++ an_timestamp r ++ js "**: " ++ entry ++ [nl] in
  match files w !! note_path d with
  | None | Some [] => run (getDailyNote (Some d)) w = DailyNote false d None
  | Some doc => run (getDailyNote (Some d)) w = DailyNote true d (Some doc)
  end
  ∧ ∃ doc', run (getDailyNote (Some d)) w' = DailyNote true d (Some doc')
      ∧ JS.includes doc' (JS.toWellFormed appended) = true
      ∧ (JS.isWellFormed appended = true → JS.includes doc' appended = true).
Proof.
  intros r w' appended. split.
  - unfold run. rewrite getDailyNote_eq.
    by destruct (files w !! note_path d) as [[|c doc]|].
  - eexists. split; [apply getDailyNote_after_add|].
    assert (JS.includes
              (JS.or_empty (files w !! note_path d) ++ JS.toWellFormed appended)
              (JS.toWellFormed appended) = true) as Hincl.
    { apply includes_infix. exists (JS.or_empty (files w !! note_path d)), [].
      by rewrite app_nil_r. }
    change (note_line (an_timestamp (run (addDailyNote entry (Some d)) w)) entry)
      with appended.
    split; [done|]. intros Hwf. by rewrite (toWellFormed_id appended) in * by done.
Qed.

End Notes.

(** ** Listing the daily notes *)

Section Listing.

Implicit Types (a b c f n : jsstring) (names l : list jsstring).

Lemma lex_lt_irrefl a : ¬ JS.lex_lt a a.
Proof. induction a as [|x a IH]; simpl; [tauto|]. intros [?|[_ ?]]; [lia | done]. Qed.

Lemma lex_lt_trans a b c : JS.lex_lt a b → JS.lex_lt b c → JS.lex_lt a c.
Proof.
  revert b c. induction a as [|x a IH]; intros [|y b] [|z c]; simpl; try done.
  intros [?|[-> Hab]] [?|[-> Hbc]]; [left; lia | by left | by left |].
  right. split; [done|]. by eapply IH.
Qed.

Lemma lex_lt_total a b : JS.lex_lt a b ∨ a = b ∨ JS.lex_lt b a.
Proof.
  revert b. induction a as [|x a IH]; intros [|y b]; simpl; auto.
  destruct (N.lt_trichotomy x y) as [?|[->|?]]; [by auto| |by auto].
  destruct (IH b) as [?|[->|?]]; auto.
Qed.

Lemma lex_lt_app_inv a b c :
  length a = length b → JS.lex_lt (a ++ c) (b ++ c) → JS.lex_lt a b.
Proof.
  revert b. induction a as [|x a IH]; intros [|y b] Hlen; simpl in *; try done.
  - intros H. by apply lex_lt_irrefl in H.
  - intros [?|[-> H]]; [by left|]. right. split; [done|]. apply IH; [lia | done].
Qed.

Lemma filter_elem (P : jsstring → bool) l f :
  f ∈ List.filter P l ↔ f ∈ l ∧ P f = true.
Proof. by rewrite !list_elem_of_In, filter_In. Qed.

Lemma filter_NoDup (P : jsstring → bool) l : NoDup l → NoDup (List.filter P l).
Proof.
  induction 1 as [|x l Hx Hl IH]; simpl; [constructor|].
  destruct (P x) eqn:E; [|done]. constructor; [|done].
  rewrite filter_elem. by intros [? _].
Qed.

(** *** The sort *)

Lemma insert_sorted_perm (cmp : jsstring → jsstring → Z) f l :
  JS.insert_sorted cmp f l ≡ₚ f :: l.
Proof.
  induction l as [|y l IH]; simpl; [done|].
  destruct (cmp f y <=? 0)%Z; [done|]. by rewrite IH, Permutation_swap.
Qed.

Lemma sort_perm (cmp : jsstring → jsstring → Z) l : JS.sort cmp l ≡ₚ l.
Proof.
  induction l as [|x l IH]; simpl; [done|]. by rewrite insert_sorted_perm, IH.
Qed.

(** On the names that pass the filter the collation of [localeCompare] is
    the code unit order: they are made of ASCII digits, [-] and [.md]
    at the same positions. *)
Hypothesis localeCompare_lt : ∀ a b,
  CONFIG.dailyNotePattern a = true → CONFIG.dailyNotePattern b = true →
  (localeCompare a b < 0)%Z ↔ JS.lex_lt a b.
Hypothesis localeCompare_eq : ∀ a b,
  CONFIG.dailyNotePattern a = true → CONFIG.dailyNotePattern b = true →
  localeCompare a b = 0%Z ↔ a = b.

Abbreviation newest_first := (λ a b : jsstring, localeCompare b a).
Abbreviation descending := (λ a b : jsstring, JS.lex_lt b a).

Lemma insert_sorted_descending f l :
  Forall (λ a, CONFIG.dailyNotePattern a = true) (f :: l) → f ∉ l →
  StronglySorted descending l →
  StronglySorted descending (JS.insert_sorted newest_first f l).
Proof using localeCompare_lt localeCompare_eq.
  induction l as [|y l IH]; intros Hpat Hf Hsorted; simpl.
  - repeat constructor.
  - apply not_elem_of_cons in Hf as [Hfy Hf].
    inversion_clear Hpat as [|?? Hpf Hpl]. inversion_clear Hpl as [|?? Hpy Hpl'].
    inversion_clear Hsorted as [|?? Hsorted' Hy].
    destruct (Z.leb_spec (localeCompare y f) 0) as [Hle|Hgt].
    + assert (JS.lex_lt y f) as Hlt.
      { apply Z.le_lteq in Hle as [?|Heq].
        - by apply localeCompare_lt.
        - apply localeCompare_eq in Heq; [congruence | done..]. }
      constructor; [by constructor|]. constructor; [done|].
      eapply Forall_impl; [exact Hy|]. intros z Hz.
      exact (lex_lt_trans _ _ _ Hz Hlt).
    + assert (JS.lex_lt f y) as Hlt.
      { destruct (lex_lt_total f y) as [?|[->|H]]; [done|done|].
        apply localeCompare_lt in H; [lia | done..]. }
      constructor.
      * apply IH; [by constructor | done | done].
      * rewrite insert_sorted_perm. by constructor.
Qed.

Lemma sort_descending l :
  Forall (λ a, CONFIG.dailyNotePattern a = true) l → NoDup l →
  StronglySorted descending (JS.sort newest_first l).
Proof using localeCompare_lt localeCompare_eq.
  induction l as [|x l IH]; intros Hpat Hnd; simpl; [constructor|].
  inversion_clear Hnd as [|?? Hx Hnd']. inversion Hpat as [|?? Hpx Hpl]; subst.
  apply insert_sorted_descending; [| |by apply IH].
  - constructor; [done|]. by rewrite sort_perm.
  - by rewrite sort_perm.
Qed.

(** *** Stripping the extension *)

Lemma isDigit_not_dot x : CONFIG.isDigit x = true → (46 =? x) = false.
Proof.
  unfold CONFIG.isDigit. intros [H _]%andb_true_iff.
  apply N.leb_le in H. apply N.eqb_neq. lia.
Qed.

Lemma replace_skip x a p0 pat rep :
  (p0 =? x) = false →
  JS.replace (x :: a) (p0 :: pat) rep = x :: JS.replace a (p0 :: pat) rep.
Proof. intros H. simpl. by rewrite H. Qed.

Lemma dailyNotePattern_shape f :
  CONFIG.dailyNotePattern f = true →
  ∃ stem, f = stem ++ js ".md" ∧ length stem = 10%nat
          ∧ JS.replace f (js ".md") [] = stem.
Proof.
  intros H. do 13 (destruct f as [|? f]; [discriminate|]).
  destruct f; [|discriminate]. unfold CONFIG.dailyNotePattern in H.
  repeat (apply andb_true_iff in H as [H ?]).
  repeat match goal with
         | E : (_ =? _) = true |- _ => apply N.eqb_eq in E; subst
         end.
  match goal with
  | E : (48 <=? ?x) = true |- _ =>
      assert (CONFIG.isDigit x = true) by (by apply andb_true_iff)
  end.
  eexists [_; _; _; _; _; _; _; _; _; _]. split; [reflexivity|]. split; [done|].
  change (js ".md") with [46; 109; 100].
  rewrite !replace_skip by first [by apply isDigit_not_dot | reflexivity]. done.
Qed.

Lemma strip_descending l :
  Forall (λ a, CONFIG.dailyNotePattern a = true) l →
  StronglySorted descending l →
  StronglySorted descending (List.map (λ f, JS.replace f (js ".md") []) l).
Proof.
  intros Hpat Hsorted. induction Hsorted as [|x l Hsorted IH Hx]; simpl; [constructor|].
  inversion_clear Hpat as [|?? Hpx Hpl]. constructor; [by apply IH|].
  apply Forall_forall. intros n (b & <- & Hb)%list_elem_of_In%in_map_iff.
  apply list_elem_of_In in Hb.
  pose proof (proj1 (Forall_forall _ _) Hx b Hb) as Hlt.
  pose proof (proj1 (Forall_forall _ _) Hpl b Hb) as Hpb.
  destruct (dailyNotePattern_shape x Hpx) as (sx & Ex & Hlx & ->).
  destruct (dailyNotePattern_shape b Hpb) as (sb & Eb & Hlb & ->).
  simpl in Hlt. rewrite Ex, Eb in Hlt. apply lex_lt_app_inv in Hlt; [done | lia].
Qed.

(** C7, as far as the program goes.  For the names of a directory (no
    name twice) and a limit that is not negative, [list_daily_notes]
    returns names of the directory that match the pattern, without the
    extension, in strictly descending code unit order, at most [limit] of
    them, and [count] is their number; when the directory cannot be read
    it returns no notes, count 0 and the message of the error. *)
Theorem list_daily_notes_sorted names (limit : option Z) :
  NoDup names → (0 ≤ default 10 limit)%Z →
  let r := listDailyNotes (Listing names) limit in
  (∀ n, n ∈ notes r →
        n ++ js ".md" ∈ names ∧ CONFIG.dailyNotePattern (n ++ js ".md") = true)
  ∧ StronglySorted descending (notes r)
  ∧ (Z.of_nat (length (notes r)) ≤ default 10 limit)%Z
  ∧ lr_count r = length (notes r)
  ∧ lr_error r = None
  ∧ ∀ message,
      listDailyNotes (ReaddirError message) limit = ListResult [] 0 (Some message).
Proof using localeCompare_lt localeCompare_eq.
  intros Hnd Hlimit r. subst r. unfold listDailyNotes. cbn [notes lr_count lr_error].
  rewrite slice_0 by done.
  set (sorted := JS.sort newest_first (List.filter CONFIG.dailyNotePattern names)).
  assert (sorted ≡ₚ List.filter CONFIG.dailyNotePattern names) as Hperm
    by apply sort_perm.
  assert (Forall (λ a, CONFIG.dailyNotePattern a = true)
            (List.filter CONFIG.dailyNotePattern names)) as Hpat0.
  { apply Forall_forall. by intros f [_ ?]%filter_elem. }
  assert (Forall (λ a, CONFIG.dailyNotePattern a = true) sorted) as Hpat
    by by rewrite Hperm.
  assert (StronglySorted descending sorted) as Hsorted.
  { apply sort_descending; [done|]. by apply filter_NoDup. }
  set (k := Z.to_nat (default 10%Z limit)).
  assert (Forall (λ a, CONFIG.dailyNotePattern a = true) (take k sorted)) as Hpatk.
  { apply Forall_forall. intros f Hf.
    apply (proj1 (Forall_forall _ _) Hpat).
    eapply elem_of_sublist; [done | apply sublist_take]. }
  split_and!; try done.
  - intros n (f & <- & Hf)%list_elem_of_In%in_map_iff.
    apply list_elem_of_In in Hf.
    assert (f ∈ sorted) as Hin by (eapply elem_of_sublist; [done | apply sublist_take]).
    rewrite Hperm in Hin. apply filter_elem in Hin as [Hin Hp].
    destruct (dailyNotePattern_shape f Hp) as (stem & E & _ & ->).
    by rewrite <- E.
  - apply strip_descending; [done|].
    rewrite <- (take_drop k sorted) in Hsorted.
    by apply StronglySorted_app_1_l in Hsorted.
  - rewrite length_map, length_take. lia.
Qed.

(** X8. [list_daily_notes] keeps the newest notes: for the names of a
    directory and a limit that is not negative, a matching name is left
    out only when there are more matching names than the limit, the list
    is full, and every listed note is newer than the one left out. *)
Theorem list_daily_notes_newest names (limit : Z) :
  NoDup names → (0 ≤ limit)%Z →
  let r := listDailyNotes (Listing names) (Some limit) in
  ∀ f, f ∈ names → CONFIG.dailyNotePattern f = true →
    (∃ n, n ∈ notes r ∧ f = n ++ js ".md")
    ∨ ((Z.to_nat limit < length (List.filter CONFIG.dailyNotePattern names))%nat
       ∧ length (notes r) = Z.to_nat limit
       ∧ ∀ n, n ∈ notes r → JS.lex_lt f (n ++ js ".md")).
Proof using localeCompare_lt localeCompare_eq.
  intros Hnd Hlimit r f Hf Hpf. subst r. unfold listDailyNotes.
  cbn [notes default]. change (id limit) with limit. rewrite slice_0 by done.
  set (sorted := JS.sort newest_first (List.filter CONFIG.dailyNotePattern names)).
  set (k := Z.to_nat limit).
  assert (sorted ≡ₚ List.filter CONFIG.dailyNotePattern names) as Hperm
    by apply sort_perm.
  assert (Forall (λ a, CONFIG.dailyNotePattern a = true) sorted) as Hpat.
  { rewrite Hperm. apply Forall_forall. by intros x [_ ?]%filter_elem. }
  assert (StronglySorted descending sorted) as Hsorted.
  { apply sort_descending; [|by apply filter_NoDup].
    apply Forall_forall. by intros x [_ ?]%filter_elem. }
  assert (f ∈ sorted) as Hin by (rewrite Hperm; by apply filter_elem).
  rewrite <- (take_drop k sorted) in Hin, Hsorted.
  apply elem_of_app in Hin as [Hin|Hin].
  - left. destruct (dailyNotePattern_shape f Hpf) as (stem & E & _ & Hstrip).
    exists stem. split; [|done]. rewrite <- Hstrip.
    apply list_elem_of_In, in_map_iff. exists f.
    split; [done | by apply list_elem_of_In].
  - right.
    assert (k < length sorted)%nat as Hk.
    { destruct (decide (k < length sorted)%nat); [done|].
      rewrite drop_ge in Hin by lia. by apply elem_of_nil in Hin. }
    split_and!.
    + by rewrite <- (Permutation_length Hperm).
    + rewrite length_map, length_take. lia.
    + intros n (x & <- & Hx)%list_elem_of_In%in_map_iff.
      apply list_elem_of_In in Hx.
      assert (CONFIG.dailyNotePattern x = true) as Hpx.
      { apply (proj1 (Forall_forall _ _) Hpat).
        eapply elem_of_sublist; [done | apply sublist_take]. }
      destruct (dailyNotePattern_shape x Hpx) as (stem & E & _ & ->).
      rewrite <- E.
      by eapply (StronglySorted_app_1_elem_of descending).
Qed.

Lemma slice_0_negative {A} (n : Z) (l : list A) :
  (n < 0)%Z → JS.slice 0 n l = take (Z.to_nat (Z.of_nat (length l) + n)) l.
Proof.
  intros Hn. unfold JS.slice, JS.clamp_index.
  destruct (Z.ltb_spec n 0) as [_|?]; [|lia].
  destruct (Z.ltb_spec 0 0) as [?|_]; [lia|].
  replace (Z.to_nat (Z.min 0 (Z.of_nat (length l)))) with 0%nat by lia.
  rewrite Nat.sub_0_r, drop_0. f_equal. lia.
Qed.

(** X9. A negative limit drops names from the end of the list:
    with limit [-k] and [n] matching names, [list_daily_notes] returns
    [n - k] notes (none when [k] exceeds [n]), and [count] is that
    number. *)
Theorem list_daily_notes_drops_last names (limit : Z) :
  (limit < 0)%Z →
  let r := listDailyNotes (Listing names) (Some limit) in
  length (notes r)
  = Z.to_nat (Z.of_nat (length (List.filter CONFIG.dailyNotePattern names)) + limit)
  ∧ lr_count r = length (notes r).
Proof.
  intros Hlimit r. subst r. unfold listDailyNotes. cbn [notes lr_count default].
  change (id limit) with limit.
  split; [|done]. rewrite length_map, slice_0_negative, length_take by done.
  rewrite (Permutation_length (sort_perm _ _)). lia.
Qed.

Lemma filter_perm (P : jsstring → bool) l l' :
  l ≡ₚ l' → List.filter P l ≡ₚ List.filter P l'.
Proof.
  induction 1 as [|x l l' _ IH|x y l|l l' l'' _ IH1 _ IH2]; simpl.
  - done.
  - destruct (P x); by rewrite IH.
  - destruct (P x), (P y); (done || apply Permutation_swap).
  - by rewrite IH1.
Qed.

(** X14. The answer of [list_daily_notes] does not depend on the order in
    which the directory is read: two listings of the same names, no name
    twice, give the same result. *)
Theorem list_daily_notes_order_independent names names' (limit : option Z) :
  NoDup names → names ≡ₚ names' →
  listDailyNotes (Listing names) limit = listDailyNotes (Listing names') limit.
Proof using localeCompare_lt localeCompare_eq.
  intros Hnd Hperm. unfold listDailyNotes.
  assert (JS.sort newest_first (List.filter CONFIG.dailyNotePattern names)
          = JS.sort newest_first (List.filter CONFIG.dailyNotePattern names')) as ->;
    [|done].
  assert (∀ l, Forall (λ a, CONFIG.dailyNotePattern a = true)
                 (List.filter CONFIG.dailyNotePattern l)) as Hpat.
  { intros l. apply Forall_forall. by intros x [_ ?]%filter_elem. }
  apply (StronglySorted_unique_strong descending).
  - intros x y _ _ Hxy Hyx. destruct (lex_lt_irrefl x).
    by eapply lex_lt_trans.
  - apply sort_descending; [done | by apply filter_NoDup].
  - apply sort_descending; [done|]. apply filter_NoDup. by rewrite <- Hperm.
  - rewrite !sort_perm. by apply filter_perm.
Qed.

End Listing.

(** ** Further facts about the string primitives *)

Section MoreStringFacts.

Implicit Types (s t u a b sub : jsstring) (c sep : N).

Lemma split_app sep a b :
  JS.split sep (a ++ sep :: b) = JS.split sep a ++ JS.split sep b.
Proof.
  induction a as [|c a IH]; simpl.
  - by rewrite N.eqb_refl.
  - destruct (c =? sep); [by rewrite IH|]. rewrite IH.
    destruct (JS.split sep a) as [|l ls] eqn:E; [by apply split_nonempty in E|done].
Qed.

Lemma includes_app_l a b sub :
  JS.includes a sub = true → JS.includes (a ++ b) sub = true.
Proof.
  rewrite !includes_infix. intros (x & r & ->). exists x, (r ++ b).
  by rewrite <- !app_assoc.
Qed.

Lemma trimStart_idem s : JS.trimStart (JS.trimStart s) = JS.trimStart s.
Proof.
  induction s as [|c s IH]; simpl; [done|].
  destruct (JS.isWhiteSpace c) eqn:E; [done|]. simpl. by rewrite E.
Qed.

Lemma trimStart_fixed_inv t :
  JS.trimStart t = t → t = [] ∨ ∃ c t', t = c :: t' ∧ JS.isWhiteSpace c = false.
Proof.
  destruct t as [|c t']; [by left|]. simpl.
  destruct (JS.isWhiteSpace c) eqn:E; [|by right; eauto].
  intros H. pose proof (trimStart_suffix t') as Hs. rewrite H in Hs.
  apply suffix_length in Hs. simpl in Hs. lia.
Qed.

Lemma trimStart_nil_iff s :
  JS.trimStart s = [] ↔ forallb JS.isWhiteSpace s = true.
Proof.
  induction s as [|c s IH]; simpl; [done|].
  destruct (JS.isWhiteSpace c); simpl; [done|]. split; done.
Qed.

Lemma trimEnd_prefix u : JS.trimEnd u `prefix_of` u.
Proof.
  unfold JS.trimEnd. destruct (trimStart_suffix (rev u)) as [k Hk].
  exists (rev k). rewrite <- rev_app_distr, <- Hk. by rewrite rev_involutive.
Qed.

Lemma trim_infix s : ∃ a r, s = a ++ JS.trim s ++ r.
Proof.
  unfold JS.trim. destruct (trimStart_suffix s) as [a Ha].
  destruct (trimEnd_prefix (JS.trimStart s)) as [r Hr].
  exists a, r. by rewrite <- Hr.
Qed.

(** A trimmed string: no white space at either end. *)
Lemma trim_fixed t :
  JS.trimStart t = t → JS.trimStart (rev t) = rev t → JS.trim t = t.
Proof.
  intros H1 H2. unfold JS.trim, JS.trimEnd. by rewrite H1, H2, rev_involutive.
Qed.

Lemma trim_trimmed s :
  JS.trimStart (JS.trim s) = JS.trim s
  ∧ JS.trimStart (rev (JS.trim s)) = rev (JS.trim s).
Proof.
  split.
  - unfold JS.trim. set (u := JS.trimStart s).
    destruct (trimStart_fixed_inv u (trimStart_idem s)) as [E|(c & u' & E & Hc)];
      rewrite E; [done|].
    destruct (trim_head c u' Hc) as [t Ht].
    unfold JS.trim in Ht. simpl in Ht. rewrite Hc in Ht. rewrite Ht.
    simpl. by rewrite Hc.
  - unfold JS.trim, JS.trimEnd. rewrite !rev_involutive. apply trimStart_idem.
Qed.

Lemma trim_idem s : JS.trim (JS.trim s) = JS.trim s.
Proof. destruct (trim_trimmed s). by apply trim_fixed. Qed.

Lemma trim_nil_iff s : JS.trim s = [] ↔ forallb JS.isWhiteSpace s = true.
Proof.
  rewrite <- trimStart_nil_iff. unfold JS.trim, JS.trimEnd. split.
  - intros H. apply (f_equal (@rev N)) in H. rewrite rev_involutive in H. simpl in H.
    destruct (trimStart_fixed_inv _ (trimStart_idem s)) as [E|(c & u' & E & Hc)]; [done|].
    rewrite E in H. 
    destruct (trimStart_keeps_tail (rev u') c [] Hc) as [x Hx].
    simpl in H. rewrite Hx in H. by destruct x.
  - by intros ->.
Qed.

Lemma pending_not_done s :
  JS.startsWith s CONFIG.todoMarker = true →
  JS.startsWith s CONFIG.doneMarker = false.
Proof.
  intros [k ->]%startsWith_prefix. reflexivity.
Qed.

End MoreStringFacts.

(** ** How the writers compose *)

Section Writers.

Implicit Types (w : world) (d entry todo doc : jsstring).

Lemma addMemory_files entry category w :
  files (exec (addMemory entry category) w)
  = <[CONFIG.memoryFile :=
        JS.or_empty (files w !! CONFIG.memoryFile)
        ++ JS.toWellFormed
             (memory_section (default (js "General") category)
                (clock w (ticks w)) entry)]> (files w).
Proof.
  unfold exec. rewrite addMemory_eq. cbn [snd]. rewrite files_write.
  by rewrite toWellFormed_app by apply or_empty_isWellFormed.
Qed.

(** X1. Two [add_daily_note] calls on a date leave the prior note followed
    by the two lines, in call order, each with the timestamp of its
    acknowledgment and as the UTF-8 file holds it (a lone surrogate of the
    entry is read back as U+FFFD); no other file changes. *)
Theorem add_daily_note_accumulates (e1 e2 : jsstring) d w :
  let r1 := run (addDailyNote e1 (Some d)) w in
  let w1 := exec (addDailyNote e1 (Some d)) w in
  let r2 := run (addDailyNote e2 (Some d)) w1 in
  let w2 := exec (addDailyNote e2 (Some d)) w1 in
  let prior := JS.or_empty (files w !! note_path d) in
  files w2
  = <[note_path d := prior ++ JS.toWellFormed (note_line (an_timestamp r1) e1)
                           ++ JS.toWellFormed (note_line (an_timestamp r2) e2)]>
      (files w)
  ∧ (∀ p, p ≠ note_path d → files w2 !! p = files w !! p)
  ∧ an_success r1 = true ∧ an_success r2 = true.
Proof.
  cbv zeta. rewrite !addDailyNote_files, lookup_insert_eq, insert_insert_eq.
  change (JS.or_empty (Some ?x)) with x.
  unfold run, exec. rewrite !addDailyNote_eq.
  cbn [fst snd clock ticks an_timestamp an_success].
  rewrite <- !app_assoc. split_and!; [done| |done|done].
  intros p Hp. by rewrite lookup_insert_ne.
Qed.

(** X2. Two [add_memory] calls leave the prior memory followed by the two
    sections in call order, each as the UTF-8 file holds it (a lone
    surrogate of an entry or category is read back as U+FFFD): a category
    used twice gets two headings, and nothing of the prior document is
    rewritten. *)
Theorem add_memory_accumulates (e1 e2 : jsstring) (c1 c2 : option jsstring) w :
  let r1 := run (addMemory e1 c1) w in
  let w1 := exec (addMemory e1 c1) w in
  let r2 := run (addMemory e2 c2) w1 in
  let w2 := exec (addMemory e2 c2) w1 in
  run getMemory w2
  = run getMemory w
    ++ JS.toWellFormed
         (memory_section (default (js "General") c1) (am_timestamp r1) e1)
    ++ JS.toWellFormed
         (memory_section (default (js "General") c2) (am_timestamp r2) e2)
  ∧ (∀ p, p ≠ CONFIG.memoryFile → files w2 !! p = files w !! p).
Proof.
  cbv zeta. unfold run at 1 2. rewrite !getMemory_eq. cbn [fst].
  rewrite !addMemory_files, !lookup_insert_eq, insert_insert_eq.
  change (JS.or_empty (Some ?x)) with x.
  unfold run, exec. rewrite !addMemory_eq.
  cbn [fst snd clock ticks am_timestamp].
  repeat change (JS.or_empty (Some ?x)) with x.
  rewrite <- !app_assoc. split; [done|].
  intros p Hp. by rewrite lookup_insert_ne.
Qed.

Lemma with_todo_heading todo doc :
  JS.includes (with_todo todo doc) (js "## TODOs") = true.
Proof.
  unfold with_todo. destruct (JS.includes doc (js "## TODOs")) eqn:E; simpl.
  - by apply includes_app_l.
  - apply includes_app_l, includes_infix. exists (doc ++ [nl]), [nl].
    by rewrite <- !app_assoc.
Qed.

Lemma with_todo_with_heading todo doc :
  JS.includes doc (js "## TODOs") = true →
  with_todo todo doc = doc ++ todo_bullet todo.
Proof. intros H. unfold with_todo. by rewrite H. Qed.

(** X3. [add_todo] emits the [## TODOs] heading at most once: after a
    call the note contains the heading and has the prior note as a prefix,
    and a second call appends its bullet line, as the UTF-8 file holds
    it, and nothing else. *)
Theorem add_todo_heading_once (t1 t2 : jsstring) d w :
  let w1 := exec (addTODO t1 (Some d)) w in
  let w2 := exec (addTODO t2 (Some d)) w1 in
  ∃ doc1,
    files w1 !! note_path d = Some doc1
    ∧ JS.or_empty (files w !! note_path d) `prefix_of` doc1
    ∧ JS.includes doc1 (js "## TODOs") = true
    ∧ files w2 !! note_path d
      = Some (doc1 ++ JS.toWellFormed (todo_bullet t2)).
Proof.
  cbv zeta. rewrite !addTODO_files, !lookup_insert_eq.
  change (JS.or_empty (Some ?x)) with x.
  set (prior := JS.or_empty (files w !! note_path d)).
  exists (with_todo (JS.toWellFormed t1) prior). split_and!; [done| | |].
  - unfold with_todo. destruct (negb _); rewrite <- ?app_assoc; by eexists.
  - apply with_todo_heading.
  - f_equal. rewrite todo_bullet_toWellFormed.
    apply with_todo_with_heading, with_todo_heading.
Qed.

End Writers.

(** ** How the TODO operations compose *)

Section TodoComposition.

Implicit Types (w : world) (d todo todoText doc l : jsstring)
  (lines : list jsstring).

Lemma no_todo_lines_filtered (h : nat → nat) lines :
  Forall (λ l, is_todo_line l = false) lines →
  List.filter (λ '(line, idx), is_todo_line line)
    (imap (λ (idx : nat) (line : jsstring), (line, h idx)) lines) = [].
Proof.
  intros H. revert h. induction H as [|x rest Hx _ IH]; intros h; [done|].
  cbn [imap List.filter]. rewrite Hx. apply (IH (h ∘ S)).
Qed.

Lemma todo_items_app lines (more : list jsstring) :
  Forall (λ l, is_todo_line l = false) more →
  todo_items (lines ++ more) = todo_items lines.
Proof.
  intros H. unfold todo_items. rewrite imap_app, List.filter_app.
  rewrite (no_todo_lines_filtered (λ n, (length lines + n)%nat) more H).
  by rewrite app_nil_r.
Qed.

Lemma todo_bullet_lines todo :
  nl ∉ todo →
  JS.split nl (todo_bullet todo)
  = [js "- " ++ CONFIG.todoMarker ++ js " " ++ todo; []].
Proof.
  intros Hnl. unfold todo_bullet.
  rewrite !app_assoc, split_app_no_sep; [by rewrite <- !app_assoc|].
  rewrite !not_elem_of_app. split_and!; [| | |done];
    intros H; repeat (apply elem_of_cons in H as [H|H]; [discriminate|]);
    by apply elem_of_nil in H.
Qed.

Lemma appended_lines_not_todo todo (heading : bool) :
  nl ∉ todo →
  Forall (λ l, is_todo_line l = false)
    (JS.split nl ((if heading then nl :: js "## TODOs" ++ [nl] else [])
                  ++ todo_bullet todo)).
Proof.
  intros Hnl. destruct heading.
  - change ((nl :: js "## TODOs" ++ [nl]) ++ todo_bullet todo)
      with ([] ++ nl :: js "## TODOs" ++ nl :: todo_bullet todo).
    rewrite split_app_no_sep by apply not_elem_of_nil.
    rewrite split_app_no_sep.
    2:{ intros H. repeat (apply elem_of_cons in H as [H|H]; [discriminate|]).
        by apply elem_of_nil in H. }
    rewrite todo_bullet_lines by done.
    repeat constructor. apply addTODO_line_not_selected.
  - change ([] ++ todo_bullet todo) with (todo_bullet todo).
    rewrite todo_bullet_lines by done.
    repeat constructor. apply addTODO_line_not_selected.
Qed.

(** X4. For a note that is absent, empty or ends with a line feed, and a
    todo without a line feed, [add_todo] leaves the items [get_todos]
    returns as they were: the item added is on a line that starts with a
    dash and is not among them. *)
Theorem add_todo_items_unchanged todo d w :
  nl ∉ todo →
  ends_with_newline (JS.or_empty (files w !! note_path d)) →
  todos (run (getTODOs (Some d)) (exec (addTODO todo (Some d)) w))
  = todos (run (getTODOs (Some d)) w).
Proof.
  intros Hnl Hend.
  destruct (JS.falsy (files w !! note_path d)) eqn:Hfalsy.
  - rewrite addTODO_then_getTODOs_fresh by done.
    by rewrite getTODOs_absent.
  - destruct (files w !! note_path d) as [[|c doc]|] eqn:Hdoc; try done.
    destruct Hend as [?|[a Ha]]; [done|]. simpl in Ha.
    unfold run. rewrite !getTODOs_eq. cbn [fst].
    rewrite addTODO_files, lookup_insert_eq, Hdoc.
    apply toWellFormed_no_nl in Hnl. revert Hnl.
    generalize (JS.toWellFormed todo). clear todo. intros todo Hnl.
    change (JS.or_empty (Some (c :: doc))) with (c :: doc). rewrite Ha.
    assert (with_todo todo (a ++ [nl])
            = a ++ nl :: (if negb (JS.includes (a ++ [nl]) (js "## TODOs"))
                          then nl :: js "## TODOs" ++ [nl] else [])
                         ++ todo_bullet todo) as ->.
    { unfold with_todo, todo_bullet.
      destruct (negb _); rewrite <- !app_assoc; simpl; by rewrite <- ?app_assoc. }
    set (X := (if negb _ then _ else _) ++ todo_bullet todo).
    assert (JS.falsy (Some (a ++ nl :: X)) = false) as -> by by destruct a.
    change (JS.or_empty (Some ?x)) with x.
    assert (JS.falsy (Some (a ++ [nl])) = false) as -> by by destruct a.
    cbn [todos]. rewrite !split_app.
    rewrite !todo_items_app; [done| |].
    + simpl. repeat constructor.
    + apply appended_lines_not_todo. done.
Qed.

(** *** The line stored by [completeTODO] *)

Lemma flip_marker_trimmed l :
  is_pending l = true → JS.trim (flip_marker l) = flip_marker l.
Proof.
  intros [k Hk]%startsWith_prefix. unfold flip_marker. rewrite Hk.
  change (drop 3 (CONFIG.todoMarker ++ k)) with k.
  apply trim_fixed; [done|].
  destruct (trim_trimmed l) as [_ H]. rewrite Hk in H.
  rewrite rev_app_distr in *. 
  destruct (rev k) as [|c r]; [done|].
  apply trimStart_fixed_inv in H as [?|(c' & t' & E & Hc)]; [done|].
  simpl in E. injection E as <- _. simpl. by rewrite Hc.
Qed.

Lemma flip_marker_text l :
  is_pending l = true →
  JS.trim (JS.substring 4 (JS.trim (flip_marker l)))
  = JS.trim (JS.substring 4 (JS.trim l)).
Proof.
  intros H. rewrite flip_marker_trimmed by done.
  apply startsWith_prefix in H as [k Hk]. unfold flip_marker. by rewrite Hk.
Qed.

Lemma flip_marker_not_pending l todoText :
  is_pending l = true → pending_match todoText (flip_marker l) = false.
Proof.
  intros H. unfold pending_match, is_pending.
  by rewrite flip_marker_trimmed.
Qed.

(** X5. When one line only of the note is a pending line that contains
    the text, [complete_todo] succeeds once: the same call again answers
    "TODO not found" and leaves the note as the first call wrote it. *)
Theorem complete_todo_twice todoText d w doc (i : nat) l :
  files w !! note_path d = Some doc →
  JS.split nl doc !! i = Some l →
  pending_match todoText l = true →
  (∀ j l', j ≠ i → JS.split nl doc !! j = Some l' →
           pending_match todoText l' = false) →
  let w1 := exec (completeTODO todoText (Some d)) w in
  run (completeTODO todoText (Some d)) w = Completed true todoText true
  ∧ run (completeTODO todoText (Some d)) w1
    = TodoNotFound (js "TODO not found") todoText
  ∧ files (exec (completeTODO todoText (Some d)) w1) = files w1.
Proof.
  intros Hdoc Hi Hl Hothers w1.
  assert (first_match (pending_match todoText) (JS.split nl doc) i l) as Hfirst.
  { split_and!; [done..|]. intros j l' Hj. apply Hothers. lia. }
  destruct (completeTODO_flip todoText d w doc i l Hdoc Hfirst) as [Heq Hsplit].
  pose proof (flipped_isWellFormed todoText d w doc i l Hdoc Hfirst) as Hwf.
  subst w1. unfold exec at 1 3, run at 1. rewrite Heq. cbn [fst snd].
  set (doc' := JS.join nl (<[i := flip_marker l]> (JS.split nl doc))) in *.
  set (w1 := World _ _ _ _).
  assert (files w1 !! note_path d = Some doc') as Hdoc'.
  { unfold w1. by rewrite files_write, Hwf, lookup_insert_eq. }
  assert (Hline : JS.split nl doc' !! i = Some (flip_marker l)).
  { rewrite Hsplit. apply list_lookup_insert_eq. by eapply lookup_lt_Some. }
  assert (doc' ≠ []) as Hne.
  { intros E. rewrite E in Hline.
    destruct i; simpl in Hline; [discriminate | by rewrite lookup_nil in Hline]. }
  assert (∀ x, x ∈ JS.split nl doc' → pending_match todoText x = false) as Hnone.
  { intros x (j & Hj)%list_elem_of_lookup. rewrite Hsplit in Hj.
    destruct (decide (j = i)) as [->|Hne'].
    - rewrite list_lookup_insert_eq in Hj by (by eapply lookup_lt_Some).
      injection Hj as <-. apply flip_marker_not_pending.
      unfold pending_match in Hl. by apply andb_true_iff in Hl as [? _].
    - rewrite list_lookup_insert_ne in Hj by done. by eapply Hothers. }
  split_and!; [done| |].
  - by apply (completeTODO_no_match todoText d w1 doc').
  - pose proof (completeTODO_failure_frame todoText d w1) as Hframe.
    rewrite (completeTODO_no_match todoText d w1 doc') in Hframe by done.
    rewrite Hframe. unfold exec. by rewrite Heq.
Qed.

(** *** [completeTODO] seen through [getTODOs] *)

Lemma todo_items_length_gen (h : nat → nat) lines :
  length (List.map
            (λ '(line, idx),
               TodoItem (JS.trim (JS.substring 4 (JS.trim line)))
                        (JS.startsWith (JS.trim line) CONFIG.doneMarker) idx)
            (List.filter (λ '(line, idx), is_todo_line line)
               (imap (λ (idx : nat) (line : jsstring), (line, h idx)) lines)))
  = length (List.filter is_todo_line lines).
Proof.
  revert h. induction lines as [|x rest IH]; intros h; [done|].
  cbn [imap List.filter]. specialize (IH (h ∘ S)).
  destruct (is_todo_line x); cbn [List.map length]; by rewrite <- IH.
Qed.

Lemma filter_insert_length (P : jsstring → bool) lines (i : nat) l l' :
  lines !! i = Some l → P l' = P l →
  length (List.filter P (<[i := l']> lines)) = length (List.filter P lines).
Proof.
  revert i. induction lines as [|x rest IH]; intros [|i] Hi HP; simpl in *; try done.
  - injection Hi as ->. rewrite HP. by destruct (P l).
  - destruct (P x); simpl; by rewrite (IH i).
Qed.

Lemma todo_items_flip lines (i : nat) l :
  lines !! i = Some l → is_pending l = true →
  let text_i := JS.trim (JS.substring 4 (JS.trim l)) in
  let before := todo_items lines in
  let after := todo_items (<[i := flip_marker l]> lines) in
  TodoItem text_i false i ∈ before
  ∧ TodoItem text_i true i ∈ after
  ∧ (∀ item, line item ≠ i → item ∈ after ↔ item ∈ before)
  ∧ (∀ item, item ∈ after → line item = i → item = TodoItem text_i true i)
  ∧ length after = length before.
Proof.
  intros Hi Hp text_i before after. subst before after.
  assert (is_todo_line l = true) as Htodo.
  { unfold is_todo_line. unfold is_pending in Hp. by rewrite Hp. }
  assert (is_todo_line (flip_marker l) = true) as Htodo'.
  { unfold is_todo_line. by rewrite flip_marker_done, orb_true_r. }
  assert (i < length lines)%nat as Hlt by by eapply lookup_lt_Some.
  split_and!.
  - apply todo_items_elem. exists i, l. split_and!; [done..|].
    by rewrite pending_not_done.
  - apply todo_items_elem. exists i, (flip_marker l). split_and!; [|done|].
    + by apply list_lookup_insert_eq.
    + by rewrite flip_marker_done, flip_marker_text.
  - intros item Hline. rewrite !todo_items_elem. split.
    + intros (j & x & Hj & Hx & ->). cbn [line] in Hline.
      rewrite list_lookup_insert_ne in Hj by done. by exists j, x.
    + intros (j & x & Hj & Hx & ->). cbn [line] in Hline.
      exists j, x. by rewrite list_lookup_insert_ne.
  - intros item (j & x & Hj & Hx & ->)%todo_items_elem Hline. cbn [line] in Hline.
    subst j. rewrite list_lookup_insert_eq in Hj by done. injection Hj as <-.
    by rewrite flip_marker_done, flip_marker_text.
  - unfold todo_items. rewrite !(todo_items_length_gen id).
    apply (filter_insert_length _ _ _ l); [done | congruence].
Qed.

(** X6. A successful [complete_todo] changes one item of the list
    [get_todos] returns: the item of the first matching line keeps its
    text and line number and goes from pending to done; every other item
    and the number of items are unchanged. *)
Theorem complete_todo_marks_item todoText d w doc :
  files w !! note_path d = Some doc →
  (∃ l, l ∈ JS.split nl doc ∧ pending_match todoText l = true) →
  let before := todos (run (getTODOs (Some d)) w) in
  let after := todos (run (getTODOs (Some d))
                        (exec (completeTODO todoText (Some d)) w)) in
  ∃ (i : nat) l,
    first_match (pending_match todoText) (JS.split nl doc) i l
    ∧ TodoItem (JS.trim (JS.substring 4 (JS.trim l))) false i ∈ before
    ∧ TodoItem (JS.trim (JS.substring 4 (JS.trim l))) true i ∈ after
    ∧ (∀ item, line item ≠ i → item ∈ after ↔ item ∈ before)
    ∧ (∀ item, item ∈ after → line item = i →
               item = TodoItem (JS.trim (JS.substring 4 (JS.trim l))) true i)
    ∧ length after = length before.
Proof.
  intros Hdoc Hex before after.
  destruct (first_match_exists _ _ Hex) as (i & l & Hfirst).
  exists i, l. split; [done|].
  destruct (completeTODO_flip todoText d w doc i l Hdoc Hfirst) as [Heq Hsplit].
  pose proof (flipped_isWellFormed todoText d w doc i l Hdoc Hfirst) as Hwf.
  destruct Hfirst as (Hi & Hl & _).
  assert (is_pending l = true) as Hp.
  { unfold pending_match in Hl. by apply andb_true_iff in Hl as [? _]. }
  subst before after. unfold run, exec. rewrite Heq. cbn [snd].
  rewrite !getTODOs_eq. cbn [fst].
  rewrite files_write, Hwf, lookup_insert_eq, Hdoc.
  remember (JS.join nl (<[i := flip_marker l]> (JS.split nl doc))) as doc' eqn:Edoc.
  assert (doc ≠ []) as Hne.
  { intros ->. destruct i; simpl in Hi; [by injection Hi as <- | by rewrite lookup_nil in Hi]. }
  assert (doc' ≠ []) as Hne'.
  { intros ->.
    assert (JS.split nl [] !! i = Some (flip_marker l)) as Hline.
    { rewrite Hsplit. apply list_lookup_insert_eq. by eapply lookup_lt_Some. }
    destruct i; simpl in Hline; [discriminate | by rewrite lookup_nil in Hline]. }
  destruct doc as [|c doc]; [done|]. destruct doc' as [|c' doc']; [done|].
  cbn [JS.falsy todos]. change (JS.or_empty (Some ?x)) with x.
  rewrite Hsplit. by apply todo_items_flip.
Qed.

(** X7. Every pending item [get_todos] lists can be completed with its
    own text: [complete_todo] given the text of a listed item that is not
    done succeeds. *)
Theorem listed_pending_item_completes d w (item : todo_item) :
  item ∈ todos (run (getTODOs (Some d)) w) → done item = false →
  run (completeTODO (text item) (Some d)) w = Completed true (text item) true.
Proof.
  unfold run at 1. rewrite getTODOs_eq. cbn [fst].
  destruct (files w !! note_path d) as [[|c doc]|] eqn:Hdoc;
    cbn [JS.falsy todos]; try by intros ?%elem_of_nil.
  change (JS.or_empty (Some ?x)) with x.
  intros (i & l & Hi & Htodo & ->)%todo_items_elem Hdone. cbn [done text] in *.
  assert (pending_match (JS.trim (JS.substring 4 (JS.trim l))) l = true) as Hmatch.
  { unfold pending_match, is_pending. unfold is_todo_line in Htodo.
    rewrite Hdone, orb_false_r in Htodo. rewrite Htodo. cbn [andb].
    apply includes_infix. unfold JS.substring.
    destruct (trim_infix (drop 4 (JS.trim l))) as (a & r & Hinfix).
    exists (take 4 (JS.trim l) ++ a), r.
    rewrite <- app_assoc, <- Hinfix. by rewrite take_drop. }
  assert (∃ x, x ∈ JS.split nl (c :: doc)
               ∧ pending_match (JS.trim (JS.substring 4 (JS.trim l))) x = true) as Hex.
  { exists l. split; [by eapply list_elem_of_lookup_2 | done]. }
  destruct (first_match_exists _ _ Hex) as (i0 & l0 & Hfirst).
  destruct (completeTODO_flip _ d w _ i0 l0 Hdoc Hfirst) as [Heq _].
  unfold run. by rewrite Heq.
Qed.

(** *** The line numbers of the items *)

Lemma todo_items_lines_gen (h : nat → nat) lines :
  (∀ a b, (a < b)%nat → (h a < h b)%nat) →
  let items :=
    List.map
      (λ '(line, idx),
         TodoItem (JS.trim (JS.substring 4 (JS.trim line)))
                  (JS.startsWith (JS.trim line) CONFIG.doneMarker) idx)
      (List.filter (λ '(line, idx), is_todo_line line)
         (imap (λ (idx : nat) (line : jsstring), (line, h idx)) lines)) in
  StronglySorted lt (List.map line items)
  ∧ Forall (λ it, ∃ j, (j < length lines)%nat ∧ line it = h j) items.
Proof.
  revert h. induction lines as [|x rest IH]; intros h Hmono.
  - split; constructor.
  - cbn [imap List.filter].
    destruct (IH (h ∘ S)) as [Hsorted Hrange].
    { intros a b Hab. apply Hmono. lia. }
    assert (Forall (λ it, ∃ j, (j < length (x :: rest))%nat ∧ line it = h j)
              (List.map
                 (λ '(line, idx),
                    TodoItem (JS.trim (JS.substring 4 (JS.trim line)))
                             (JS.startsWith (JS.trim line) CONFIG.doneMarker) idx)
                 (List.filter (λ '(line, idx), is_todo_line line)
                    (imap (λ (idx : nat) (line : jsstring), (line, (h ∘ S) idx))
                       rest)))) as Hrange'.
    { eapply Forall_impl; [exact Hrange|]. intros it (j & Hj & ->).
      exists (S j). split; [simpl; lia | done]. }
    destruct (is_todo_line x); [|by split].
    cbn [List.map line]. split.
    + constructor; [done|]. apply Forall_forall.
      intros n (it & <- & Hit)%list_elem_of_In%in_map_iff.
      apply list_elem_of_In in Hit.
      destruct (proj1 (Forall_forall _ _) Hrange it Hit) as (j & _ & ->).
      apply Hmono. lia.
    + constructor; [|done]. exists 0%nat. split; [simpl; lia | done].
Qed.

(** X15. The items of [get_todos] come in document order: their line
    numbers increase strictly, and each is the index, in the split of the
    note at line feeds, of a line whose trimmed form starts with a
    marker. *)
Theorem get_todos_line_numbers d w :
  let r := run (getTODOs (Some d)) w in
  let lines := JS.split nl (JS.or_empty (files w !! note_path d)) in
  StronglySorted lt (List.map line (todos r))
  ∧ ∀ item, item ∈ todos r →
      ∃ l, lines !! line item = Some l ∧ is_todo_line l = true.
Proof.
  intros r lines. subst r. unfold run. rewrite getTODOs_eq. cbn [fst].
  destruct (JS.falsy _); cbn [todos].
  - split; [constructor | by intros ? ?%elem_of_nil].
  - split.
    + apply (todo_items_lines_gen id). by intros.
    + intros item (i & l & Hi & Hl & ->)%todo_items_elem. by exists l.
Qed.

End TodoComposition.

(** ** The clock, the default date and the context summary *)

Section Context.

Implicit Types (w : world) (d todo todoText date : jsstring).

Lemma todayStr_eq w :
  todayStr w = (date_part (clock w (ticks w)), after_readings 1 w).
Proof. done. Qed.

Lemma yesterdayStr_eq w :
  yesterdayStr w = (date_part (dayBefore (clock w (ticks w))), after_readings 1 w).
Proof. done. Qed.

Lemma date_part_iso date time :
  84 ∉ date → date_part (date ++ 84 :: time) = date.
Proof. intros H. unfold date_part. by rewrite split_app_no_sep. Qed.

Lemma getDailyNote_default w :
  getDailyNote None w
  = getDailyNote (Some (date_part (clock w (ticks w)))) (after_readings 1 w).
Proof. done. Qed.

Lemma getTODOs_default w :
  getTODOs None w
  = getTODOs (Some (date_part (clock w (ticks w)))) (after_readings 1 w).
Proof. done. Qed.

Lemma addTODO_default todo w :
  addTODO todo None w
  = addTODO todo (Some (date_part (clock w (ticks w)))) (after_readings 1 w).
Proof. done. Qed.

Lemma completeTODO_default todoText w :
  completeTODO todoText None w
  = completeTODO todoText (Some (date_part (clock w (ticks w)))) (after_readings 1 w).
Proof. done. Qed.

(** X10. A tool called without a date acts on the note of today, the
    part before [T] of the ISO reading of the clock: [get_daily_note],
    [get_todos], [add_todo] and [complete_todo] answer, and leave the
    files, as with that date given. *)
Theorem default_date_is_today date time todo todoText w :
  clock w (ticks w) = date ++ 84 :: time → 84 ∉ date →
  run (getDailyNote None) w = run (getDailyNote (Some date)) w
  ∧ run (getTODOs None) w = run (getTODOs (Some date)) w
  ∧ run (addTODO todo None) w = run (addTODO todo (Some date)) w
  ∧ files (exec (addTODO todo None) w) = files (exec (addTODO todo (Some date)) w)
  ∧ run (completeTODO todoText None) w = run (completeTODO todoText (Some date)) w
  ∧ files (exec (completeTODO todoText None) w)
    = files (exec (completeTODO todoText (Some date)) w).
Proof.
  intros Hclock Hdate. unfold run, exec.
  rewrite getDailyNote_default, getTODOs_default, (addTODO_default todo),
    (completeTODO_default todoText), Hclock, date_part_iso by done.
  rewrite !getDailyNote_eq, !getTODOs_eq, !addTODO_eq, !completeTODO_eq.
  change (files (after_readings 1 w)) with (files w).
  cbn [after_readings disk]. split_and!; try done.
  - destruct (JS.falsy (files w !! note_path date)); [done|].
    by destruct (complete_loop todoText _).2.
  - destruct (JS.falsy (files w !! note_path date)); [done|].
    by destruct (complete_loop todoText _).2.
Qed.

Lemma pending_count_gen (h : nat → nat) (lines : list jsstring) :
  length (List.filter (λ t, negb (done t))
            (List.map
               (λ '(line, idx),
                  TodoItem (JS.trim (JS.substring 4 (JS.trim line)))
                           (JS.startsWith (JS.trim line) CONFIG.doneMarker) idx)
               (List.filter (λ '(line, idx), is_todo_line line)
                  (imap (λ (idx : nat) (line : jsstring), (line, h idx)) lines))))
  = length (List.filter is_pending lines).
Proof.
  revert h. induction lines as [|x rest IH]; intros h; [done|].
  cbn [imap List.filter]. specialize (IH (h ∘ S)).
  assert (is_todo_line x
          = is_pending x || JS.startsWith (JS.trim x) CONFIG.doneMarker) as Et
    by done.
  destruct (is_pending x) eqn:Ep.
  - pose proof (pending_not_done _ Ep) as Ed. rewrite Ed in Et. rewrite Et.
    cbn [orb List.map List.filter done]. rewrite Ed.
    cbn [negb length]. by rewrite <- IH.
  - destruct (JS.startsWith (JS.trim x) CONFIG.doneMarker) eqn:Ed;
      rewrite Et; cbn [orb List.map List.filter done]; [|exact IH].
    rewrite Ed. exact IH.
Qed.

Lemma getContext_eq readdir w :
  let t := ticks w in
  let p1 := note_path (date_part (clock w t)) in
  let p2 := note_path (date_part (dayBefore (clock w (S t)))) in
  let p3 := note_path (date_part (clock w (S (S t)))) in
  getContext readdir w
  = (Context (date_part (clock w (S (S (S t)))))
       (negb (JS.falsy (files w !! p1)))
       (negb (JS.falsy (files w !! p2)))
       (length (List.filter (λ t, negb (done t))
          (if JS.falsy (files w !! p3) then []
           else todo_items (JS.split nl (JS.or_empty (files w !! p3))))))
       (notes (listDailyNotes readdir (Some 5%Z)))
       CONFIG.workspace,
     World (disk w) (clock w) (4 + t)
           (log w ++ read_events p1 (files w !! p1)
                  ++ read_events p2 (files w !! p2)
                  ++ read_events p3 (files w !! p3))).
Proof.
  unfold getContext, bind. rewrite todayStr_eq, getDailyNote_eq.
  rewrite yesterdayStr_eq, getDailyNote_eq, getTODOs_default, getTODOs_eq.
  rewrite todayStr_eq.
  cbn [after_readings read_world files clock ticks log Nat.add].
  unfold ret. f_equal; [f_equal|].
  - by destruct (JS.falsy _).
  - by destruct (JS.falsy _).
  - by destruct (JS.falsy _).
  - unfold after_readings, read_world. cbn [files clock ticks log Nat.add].
    by rewrite <- !app_assoc.
Qed.

(** X11. [get_context] only reads: the files are as before, no write is
    made, and at most 5 recent notes are returned. *)
Theorem get_context_read_only readdir w :
  files (exec (getContext readdir) w) = files w
  ∧ writes_between w (exec (getContext readdir) w) = []
  ∧ (length (recentNotes (run (getContext readdir) w)) ≤ 5)%nat.
Proof.
  unfold run, exec. rewrite getContext_eq. cbn [fst snd files recentNotes].
  split_and!; [done| |].
  - unfold writes_between. cbn [log]. rewrite drop_app_length.
    by destruct (files w !! _), (files w !! _), (files w !! _).
  - unfold listDailyNotes. change (default 10%Z (Some 5%Z)) with 5%Z.
    destruct readdir; cbn [notes]; [|simpl; lia].
    rewrite length_map, slice_0, length_take by done. lia.
Qed.

(** X12. [pendingTodos] of [get_context] is the number of pending lines of
    today's note, today being the date of the clock reading made for
    [getTODOs] (the third of the call); it is 0 when that note is absent
    or empty. *)
Theorem get_context_pending readdir w :
  pendingTodos (run (getContext readdir) w)
  = match files w !! note_path (date_part (clock w (2 + ticks w))) with
    | None | Some [] => 0%nat
    | Some doc => length (List.filter is_pending (JS.split nl doc))
    end.
Proof.
  unfold run. rewrite getContext_eq. cbn [fst pendingTodos Nat.add].
  destruct (files w !! _) as [[|c doc]|]; cbn [JS.falsy]; try done.
  change (JS.or_empty (Some ?x)) with x. apply (pending_count_gen id).
Qed.

End Context.

(** ** The framing of the input *)

Section Framing.

Implicit Types (line buffer : jsstring) (block blanks tail rest : list jsstring).

Lemma readStdin_nonblank line rest buffer :
  ¬ blank line →
  readStdin (line :: rest) buffer = readStdin rest (buffer ++ line ++ [nl]).
Proof.
  intros H. cbn [readStdin]. unfold on_line.
  rewrite bool_decide_eq_false_2 by done. by destruct (readStdin rest _).
Qed.

Lemma readStdin_block block rest buffer :
  Forall (λ l, ¬ blank l) block →
  readStdin (block ++ rest) buffer = readStdin rest (buffer ++ frame_of block).
Proof.
  intros H. revert buffer. induction H as [|l block Hl _ IH]; intros buffer.
  - by rewrite app_nil_r.
  - cbn [app]. rewrite readStdin_nonblank, IH by done.
    unfold frame_of. cbn [List.map concat]. by rewrite <- !app_assoc.
Qed.

Lemma readStdin_blank_empty line rest :
  blank line → readStdin (line :: rest) [] = readStdin rest [].
Proof.
  intros H. cbn [readStdin]. unfold on_line.
  rewrite bool_decide_eq_true_2 by done. cbn. by destruct (readStdin rest _).
Qed.

Lemma readStdin_blanks_empty blanks rest :
  Forall blank blanks → readStdin (blanks ++ rest) [] = readStdin rest [].
Proof.
  induction 1 as [|l blanks Hl _ IH]; [done|].
  cbn [app]. by rewrite readStdin_blank_empty.
Qed.

Lemma readStdin_blank_flush line rest buffer :
  blank line → ¬ blank buffer →
  readStdin (line :: rest) buffer
  = (buffer :: (readStdin rest []).1, (readStdin rest []).2).
Proof.
  intros Hl Hb. cbn [readStdin]. unfold on_line.
  rewrite bool_decide_eq_true_2 by done.
  rewrite (bool_decide_eq_false_2 (JS.trim buffer = [])) by done. cbn [negb].
  by destruct (readStdin rest _).
Qed.

Lemma frame_of_nonblank block :
  block ≠ [] → Forall (λ l, ¬ blank l) block → ¬ blank (frame_of block).
Proof.
  intros Hne H. destruct H as [|l block Hl _]; [done|].
  unfold blank in *. rewrite trim_nil_iff in *. unfold frame_of.
  cbn [List.map concat]. rewrite !forallb_app.
  intros [[??]%andb_true_iff ?]%andb_true_iff. done.
Qed.

(** X13. [readStdin] frames the input by blank lines.  For lines made of
    messages, each a block of one or more lines that are not blank
    followed by one or more blank lines, and then lines that are not
    blank, the buffers handed to the parser are the messages in order,
    each the lines of its block with a line feed after each; the lines
    after the last blank line stay in the buffer and are not handed
    on. *)
Theorem readStdin_frames (messages : list (list jsstring * list jsstring)) tail :
  Forall (λ '(block, blanks),
            block ≠ [] ∧ Forall (λ l, ¬ blank l) block
            ∧ blanks ≠ [] ∧ Forall blank blanks) messages →
  Forall (λ l, ¬ blank l) tail →
  readStdin
    (concat (List.map (λ '(block, blanks), block ++ blanks) messages) ++ tail) []
  = (List.map (λ '(block, _), frame_of block) messages, frame_of tail).
Proof.
  intros Hmsgs Htail. induction Hmsgs as [|[block blanks] messages Hm _ IH].
  - cbn [List.map concat app]. rewrite <- (app_nil_r tail) at 1.
    by rewrite readStdin_block.
  - destruct Hm as (Hne & Hblock & Hbne & Hblanks).
    cbn [List.map concat]. rewrite <- !app_assoc.
    rewrite readStdin_block by done. cbn [app].
    destruct Hblanks as [|b blanks Hb Hblanks]; [done|]. cbn [app].
    rewrite readStdin_blank_flush by (done || by apply frame_of_nonblank).
    by rewrite readStdin_blanks_empty, IH.
Qed.

End Framing.

End Platform.

(** ** Examples on the concrete platform *)

(** The document of the one file of an example world. *)
Lemma world_with_file_lookup path doc :
  JS.isWellFormed doc = true →
  files (Node.world_with_file path doc) !! path = Some doc.
Proof.
  intros H. unfold files, Node.world_with_file. cbn [disk].
  rewrite map_fmap_singleton, lookup_singleton_eq. by rewrite toWellFormed_id.
Qed.

(** C2 as stated fails: with an empty query the memory file is still
    looked up and read. *)
Lemma search_empty_query_reads_storage :
  let w := Node.world_with_memory (js "remember the milk") in
  log w = []
  ∧ log (exec (searchMemory Node.toLowerCase []) w)
    = [EvExists CONFIG.memoryFile; EvRead CONFIG.memoryFile]
  ∧ log (exec (searchMemory Node.toLowerCase []) w) ≠ log w.
Proof. vm_compute. split_and!; done. Qed.


(** With more than 20 matching lines [count] exceeds the length of
    [results]. *)
Example search_memory_capped :
  let doc := JS.join nl (replicate 21 (js "note")) in
  run (searchMemory Node.toLowerCase (js "NOTE")) (Node.world_with_memory doc)
  = Found (js "NOTE") 21 (replicate 20 (js "note")).
Proof. vm_compute. reflexivity. Qed.

(** The comparison of the concrete platform is the code unit order. *)
Lemma Node_localeCompare_lt (a b : jsstring) :
  (Node.localeCompare a b < 0)%Z ↔ JS.lex_lt a b.
Proof.
  revert b. induction a as [|x a IH]; intros [|y b]; simpl; try (split; (lia || tauto)).
  destruct (N.ltb_spec x y); [split; [by left | lia]|].
  destruct (N.ltb_spec y x).
  - split; [lia|]. intros [?|[-> _]]; lia.
  - rewrite IH. split; [intros; right; split; [lia | done]|].
    intros [?|[_ ?]]; [lia | done].
Qed.

Lemma Node_localeCompare_eq (a b : jsstring) :
  Node.localeCompare a b = 0%Z ↔ a = b.
Proof.
  revert b. induction a as [|x a IH]; intros [|y b]; simpl; try (split; (lia || done)).
  destruct (N.ltb_spec x y); [split; [lia | intros [= -> _]; lia]|].
  destruct (N.ltb_spec y x); [split; [lia | intros [= -> _]; lia]|].
  rewrite IH. split; [intros ->; f_equal; lia | by intros [= _ ->]].
Qed.

(** A directory with three notes and two other files, limit 2. *)
Lemma list_daily_notes_sorted_witness :
  let names := [js "2024-01-02.md"; js "notes.txt"; js "2024-03-01.md";
                js "2023-12-31.md"; js "2024-1-5.md"] in
  let r := listDailyNotes Node.localeCompare (Listing names) (Some 2%Z) in
  NoDup names ∧ (0 ≤ default 10 (Some 2))%Z
  ∧ notes r = [js "2024-03-01"; js "2024-01-02"]
  ∧ StronglySorted (λ a b, JS.lex_lt b a) (notes r)
  ∧ (Z.of_nat (length (notes r)) ≤ 2)%Z
  ∧ lr_count r = length (notes r).
Proof.
  intros names r.
  assert (NoDup names) as Hnd by (apply (bool_decide_unpack _); vm_compute; exact I).
  assert (0 ≤ default 10 (Some 2))%Z as Hlimit by (simpl; lia).
  destruct (list_daily_notes_sorted Node.localeCompare
              (λ a b _ _, Node_localeCompare_lt a b)
              (λ a b _ _, Node_localeCompare_eq a b)
              names (Some 2%Z) Hnd Hlimit) as (_ & Hsorted & Hlen & Hcount & _).
  split_and!; [exact Hnd | exact Hlimit | vm_compute; reflexivity
              | exact Hsorted | exact Hlen | exact Hcount].
Defined.

(** C7 as stated fails for a negative limit: [slice(0, -1)] drops the
    last name only. *)
Lemma list_daily_notes_negative_limit :
  let names := [js "2024-01-01.md"; js "2024-01-02.md"; js "2024-01-03.md"] in
  let r := listDailyNotes Node.localeCompare (Listing names) (Some (-1)%Z) in
  NoDup names
  ∧ notes r = [js "2024-01-03"; js "2024-01-02"]
  ∧ ¬ (Z.of_nat (length (notes r)) ≤ -1)%Z.
Proof.
  intros names r. split_and!.
  - apply (bool_decide_unpack _). vm_compute. exact I.
  - vm_compute. reflexivity.
  - assert (length (notes r) = 2%nat) as -> by (vm_compute; reflexivity). lia.
Qed.

(** Two pending lines contain the text: the first one is flipped. *)
Lemma complete_todo_flips_first_witness :
  let d := js "2024-01-01" in
  let doc := js "# Monday" ++ nl :: js "  [ ] buy milk " ++ nl :: js "[ ] buy milk too" in
  let w := Node.world_with_note d doc in
  files w !! note_path Node.path_join d = Some doc
  ∧ (∃ l, l ∈ JS.split nl doc ∧ pending_match (js "milk") l = true)
  ∧ run (completeTODO Node.path_join (js "milk") (Some d)) w
    = Completed true (js "milk") true
  ∧ ∃ i l doc',
      first_match (pending_match (js "milk")) (JS.split nl doc) i l
      ∧ files (exec (completeTODO Node.path_join (js "milk") (Some d)) w)
        = <[note_path Node.path_join d := doc']> (files w)
      ∧ JS.split nl doc' !! i = Some (CONFIG.doneMarker ++ drop 3 (JS.trim l))
      ∧ ∀ j, j ≠ i → JS.split nl doc' !! j = JS.split nl doc !! j.
Proof.
  intros d doc w.
  assert (files w !! note_path Node.path_join d = Some doc) as Hdoc
    by (apply world_with_file_lookup; vm_compute; reflexivity).
  assert (∃ l, l ∈ JS.split nl doc ∧ pending_match (js "milk") l = true) as Hex.
  { exists (js "  [ ] buy milk "). split; [|vm_compute; reflexivity].
    apply list_elem_of_In. vm_compute. auto 10. }
  destruct (complete_todo_flips_first Node.path_join (js "milk") d w doc Hdoc Hex)
    as (i & l & doc' & Hfirst & Hrun & Hfiles & _ & Hline & _ & Hother).
  split_and!; [exact Hdoc | exact Hex | exact Hrun|].
  exists i, l, doc'. split_and!; [exact Hfirst | exact Hfiles | exact Hline | exact Hother].
Defined.

(** C4 as stated fails for a line with white space around it: the line
    stored is not the old line with the marker replaced. *)
Lemma complete_todo_trims_line :
  let d := js "2024-01-01" in
  let doc := js "  [ ] buy milk" in
  let w := Node.world_with_note d doc in
  JS.split nl doc = [doc]
  ∧ pending_match (js "milk") doc = true
  ∧ files (exec (completeTODO Node.path_join (js "milk") (Some d)) w)
      !! Node.note_file d = Some (js "[x] buy milk")
  ∧ JS.replace doc CONFIG.todoMarker CONFIG.doneMarker = js "  [x] buy milk"
  ∧ js "[x] buy milk" ≠ JS.replace doc CONFIG.todoMarker CONFIG.doneMarker.
Proof. vm_compute. split_and!; done. Qed.

(** The empty text flips the first pending line of the note. *)
Lemma complete_todo_empty_text_witness :
  let d := js "2024-01-01" in
  let doc := js "## TODOs" ++ nl :: js "[x] done already" ++ nl :: js " [ ] first"
             ++ nl :: js "[ ] second" in
  let w := Node.world_with_note d doc in
  files w !! note_path Node.path_join d = Some doc
  ∧ (∃ l, l ∈ JS.split nl doc ∧ is_pending l = true)
  ∧ run (completeTODO Node.path_join [] (Some d)) w = Completed true [] true
  ∧ ∃ i l, first_match is_pending (JS.split nl doc) i l
      ∧ ∃ item,
          item ∈ todos (run (getTODOs Node.path_join (Some d))
                          (exec (completeTODO Node.path_join [] (Some d)) w))
          ∧ line item = i ∧ done item = true.
Proof.
  intros d doc w.
  assert (files w !! note_path Node.path_join d = Some doc) as Hdoc
    by (apply world_with_file_lookup; vm_compute; reflexivity).
  assert (∃ l, l ∈ JS.split nl doc ∧ is_pending l = true) as Hex.
  { exists (js "[ ] second"). split; [|vm_compute; reflexivity].
    apply list_elem_of_In. vm_compute. auto 10. }
  destruct (complete_todo_empty_text Node.path_join d w doc Hdoc Hex)
    as (i & l & doc' & Hfirst & Hrun & _ & _ & _ & Hitem).
  split_and!; [exact Hdoc | exact Hex | exact Hrun|].
  exists i, l. split; [exact Hfirst | exact Hitem].
Defined.

(** C1 fails on the program: [add_todo] writes the item on a line that
    starts with a dash, and [get_todos] selects only lines whose trimmed
    form starts with a marker.  In a world without the note, the item
    added is not listed. *)
Theorem add_todo_then_get_todos_misses :
  let d := js "2024-01-01" in
  let w' := exec (addTODO Node.path_join (js "write spec") (Some d)) Node.empty_world in
  files w' !! Node.note_file d
  = Some (nl :: js "## TODOs" ++ nl :: js "- [ ] write spec" ++ [nl])
  ∧ run (getTODOs Node.path_join (Some d)) w' = TodosResult [] d (Some 0%nat)
  ∧ run (completeTODO Node.path_join (js "write spec") (Some d)) w'
    = TodoNotFound (js "TODO not found") (js "write spec").
Proof. vm_compute. split_and!; reflexivity. Qed.

(** C5 as stated fails for a note that exists and is empty: no pending
    line contains the text, and [complete_todo] reports the note itself
    as not found.  (The store is left as it was.) *)
Lemma complete_todo_empty_note_not_found :
  let d := js "2024-01-01" in
  let w := Node.world_with_note d [] in
  files w !! Node.note_file d = Some []
  ∧ no_pending_match (js "write spec") [] = true
  ∧ run (completeTODO Node.path_join (js "write spec") (Some d)) w
    = NoteNotFound (js "Daily note not found")
  ∧ files (exec (completeTODO Node.path_join (js "write spec") (Some d)) w)
    = files w.
Proof. vm_compute. split_and!; reflexivity. Qed.

(** C6 as stated fails for a note that exists and is empty:
    [get_daily_note] reports it like an absent one. *)
Lemma get_daily_note_empty_reads_absent :
  let d := js "2024-01-01" in
  let w := Node.world_with_note d [] in
  files w !! Node.note_file d = Some []
  ∧ run (getDailyNote Node.path_join (Some d)) w = DailyNote false d None
  ∧ run (getDailyNote Node.path_join (Some d)) Node.empty_world
    = DailyNote false d None.
Proof. vm_compute. split_and!; reflexivity. Qed.

(** The other half of C6 fails for an entry with a lone surrogate (the
    JSON text ["\ud83d"] gives one): the file holds U+FFFD in its place
    and the content read back does not contain the line appended. *)
Lemma add_daily_note_lone_surrogate :
  let d := js "2024-01-01" in
  let entry := [55357] in
  let r := run (addDailyNote Node.path_join entry (Some d)) Node.empty_world in
  let w' := exec (addDailyNote Node.path_join entry (Some d)) Node.empty_world in
  let appended := js "- **" ++ an_timestamp r ++ js "**: " ++ entry ++ [nl] in
  JS.isWellFormed entry = false
  ∧ run (getDailyNote Node.path_join (Some d)) w'
    = DailyNote true d
        (Some (js "- **2024-01-01T09:30:00.000Z**: " ++ [65533; nl]))
  ∧ JS.includes (js "- **2024-01-01T09:30:00.000Z**: " ++ [65533; nl]) appended
    = false.
Proof. vm_compute. split_and!; reflexivity. Qed.

(** The line of a plain entry is read back as appended. *)
Lemma get_daily_note_reports_witness :
  let d := js "2024-01-01" in
  let entry := js "met Ada" in
  let w := Node.world_with_note d (js "# Monday" ++ [nl]) in
  let r := run (addDailyNote Node.path_join entry (Some d)) w in
  let w' := exec (addDailyNote Node.path_join entry (Some d)) w in
  let appended := js "- **" ++ an_timestamp r ++ js "**: " ++ entry ++ [nl] in
  JS.isWellFormed appended = true
  ∧ run (getDailyNote Node.path_join (Some d)) w
    = DailyNote true d (Some (js "# Monday" ++ [nl]))
  ∧ ∃ doc', run (getDailyNote Node.path_join (Some d)) w'
            = DailyNote true d (Some doc')
            ∧ JS.includes doc' appended = true.
Proof.
  intros d entry w r w' appended.
  assert (JS.isWellFormed appended = true) as Hwf by (vm_compute; reflexivity).
  destruct (get_daily_note_reports Node.path_join entry d w)
    as [_ (doc' & Hrun & _ & Hincl)].
  split_and!; [exact Hwf | vm_compute; reflexivity |].
  exists doc'. split; [exact Hrun | exact (Hincl Hwf)].
Defined.

(** C8 as stated fails for an entry with a lone surrogate (the JSON text
    ["\ud83d"] gives one): the file holds U+FFFD in its place, so the
    memory read back is not the prior content followed by the section and
    does not contain the timestamped line. *)
Lemma add_memory_lone_surrogate :
  let entry := [55357] in
  let w := Node.empty_world in
  let r := run (addMemory entry None) w in
  let w' := exec (addMemory entry None) w in
  let stamped := js "- **" ++ am_timestamp r ++ js "**: " ++ entry in
  let section := nl :: js "## " ++ am_category r ++ nl :: stamped in
  JS.isWellFormed entry = false
  ∧ run getMemory w = []
  ∧ run getMemory w'
    = nl :: js "## General" ++ nl :: js "- **2024-01-01T09:30:00.000Z**: "
         ++ [65533]
  ∧ run getMemory w' ≠ run getMemory w ++ section
  ∧ JS.includes (run getMemory w') stamped = false.
Proof. vm_compute. split_and!; done. Qed.

(** A plain entry in a category: the section is read back as written. *)
Lemma add_memory_append_only_witness :
  let entry := js "prefers tea" in
  let w := Node.world_with_memory (js "# Memory" ++ [nl]) in
  let r := run (addMemory entry (Some (js "Preferences"))) w in
  let w' := exec (addMemory entry (Some (js "Preferences"))) w in
  let stamped := js "- **" ++ am_timestamp r ++ js "**: " ++ entry in
  let section := nl :: js "## " ++ am_category r ++ nl :: stamped in
  JS.isWellFormed section = true
  ∧ JS.isWellFormed stamped = true
  ∧ run getMemory w = js "# Memory" ++ [nl]
  ∧ run getMemory w' = run getMemory w ++ section
  ∧ JS.includes (run getMemory w') stamped = true.
Proof.
  intros entry w r w' stamped section.
  assert (JS.isWellFormed section = true) as Hsection by (vm_compute; reflexivity).
  assert (JS.isWellFormed stamped = true) as Hstamped by (vm_compute; reflexivity).
  destruct (add_memory_append_only entry (Some (js "Preferences")) w)
    as (_ & _ & _ & _ & _ & _ & _ & _ & Hread & Hincl).
  split_and!; [exact Hsection | exact Hstamped | vm_compute; reflexivity
               | exact (Hread Hsection) | exact (Hincl Hstamped)].
Defined.

(** C9 fails on the program for an absent note: the result has no
    [count]. *)
Theorem get_todos_absent_without_count :
  let d := js "2024-01-01" in
  files Node.empty_world !! Node.note_file d = None
  ∧ run (getTODOs Node.path_join (Some d)) Node.empty_world = TodosResult [] d None
  ∧ td_count (run (getTODOs Node.path_join (Some d)) Node.empty_world) = None.
Proof. vm_compute. split_and!; reflexivity. Qed.

(** ** Examples for the further properties *)

(** [add_todo] on a note with one pending and one done item. *)
Lemma add_todo_items_unchanged_witness :
  let d := js "2024-01-01" in
  let doc := js "## TODOs" ++ nl :: js "[ ] call home" ++ nl :: js "[x] shop" ++ [nl] in
  let w := Node.world_with_note d doc in
  (nl ∉ js "write spec")
  ∧ ends_with_newline (JS.or_empty (files w !! note_path Node.path_join d))
  ∧ todos (run (getTODOs Node.path_join (Some d))
             (exec (addTODO Node.path_join (js "write spec") (Some d)) w))
    = todos (run (getTODOs Node.path_join (Some d)) w)
  ∧ todos (run (getTODOs Node.path_join (Some d)) w)
    = [TodoItem (js "call home") false 1; TodoItem (js "shop") true 2].
Proof.
  intros d doc w.
  assert (nl ∉ js "write spec") as Hnl
    by (apply (bool_decide_unpack _); vm_compute; exact I).
  assert (ends_with_newline (JS.or_empty (files w !! note_path Node.path_join d)))
    as Hend.
  { right. exists (js "## TODOs" ++ nl :: js "[ ] call home" ++ nl :: js "[x] shop").
    vm_compute. reflexivity. }
  split_and!; [exact Hnl | exact Hend | | vm_compute; reflexivity].
  exact (add_todo_items_unchanged Node.path_join (js "write spec") d w Hnl Hend).
Defined.

(** The second [complete_todo] with the same text finds nothing. *)
Lemma complete_todo_twice_witness :
  let d := js "2024-01-01" in
  let doc := js "[ ] call home" ++ nl :: js "[x] shop" in
  let w := Node.world_with_note d doc in
  let w1 := exec (completeTODO Node.path_join (js "call") (Some d)) w in
  files w !! note_path Node.path_join d = Some doc
  ∧ JS.split nl doc !! 0%nat = Some (js "[ ] call home")
  ∧ pending_match (js "call") (js "[ ] call home") = true
  ∧ run (completeTODO Node.path_join (js "call") (Some d)) w
    = Completed true (js "call") true
  ∧ run (completeTODO Node.path_join (js "call") (Some d)) w1
    = TodoNotFound (js "TODO not found") (js "call")
  ∧ files (exec (completeTODO Node.path_join (js "call") (Some d)) w1) = files w1.
Proof.
  intros d doc w w1.
  assert (files w !! note_path Node.path_join d = Some doc) as Hdoc
    by (apply world_with_file_lookup; vm_compute; reflexivity).
  assert (JS.split nl doc !! 0%nat = Some (js "[ ] call home")) as Hi
    by (vm_compute; reflexivity).
  assert (pending_match (js "call") (js "[ ] call home") = true) as Hl
    by (vm_compute; reflexivity).
  assert (∀ (j : nat) l', j ≠ 0%nat → JS.split nl doc !! j = Some l' →
                  pending_match (js "call") l' = false) as Hothers.
  { intros [|[|j]] l' Hj Hl'; [done| |].
    - vm_compute in Hl'. injection Hl' as <-. vm_compute. reflexivity.
    - vm_compute in Hl'. discriminate. }
  destruct (complete_todo_twice Node.path_join (js "call") d w doc 0%nat
              (js "[ ] call home") Hdoc Hi Hl Hothers) as (H1 & H2 & H3).
  split_and!; [exact Hdoc | exact Hi | exact Hl | exact H1 | exact H2 | exact H3].
Defined.

(** Completing "milk" in a note with two pending items. *)
Lemma complete_todo_marks_item_witness :
  let d := js "2024-01-01" in
  let doc := js "[ ] buy bread" ++ nl :: js "  [ ] buy milk " ++ nl :: js "[x] shop" in
  let w := Node.world_with_note d doc in
  let after := todos (run (getTODOs Node.path_join (Some d))
                        (exec (completeTODO Node.path_join (js "milk") (Some d)) w)) in
  files w !! note_path Node.path_join d = Some doc
  ∧ (∃ l, l ∈ JS.split nl doc ∧ pending_match (js "milk") l = true)
  ∧ (∃ (i : nat) l,
       first_match (pending_match (js "milk")) (JS.split nl doc) i l
       ∧ TodoItem (JS.trim (JS.substring 4 (JS.trim l))) true i ∈ after
       ∧ length after = length (todos (run (getTODOs Node.path_join (Some d)) w)))
  ∧ after = [TodoItem (js "buy bread") false 0; TodoItem (js "buy milk") true 1;
             TodoItem (js "shop") true 2].
Proof.
  intros d doc w after.
  assert (files w !! note_path Node.path_join d = Some doc) as Hdoc
    by (apply world_with_file_lookup; vm_compute; reflexivity).
  assert (∃ l, l ∈ JS.split nl doc ∧ pending_match (js "milk") l = true) as Hex.
  { exists (js "  [ ] buy milk "). split; [|vm_compute; reflexivity].
    apply list_elem_of_In. vm_compute. auto 10. }
  destruct (complete_todo_marks_item Node.path_join (js "milk") d w doc Hdoc Hex)
    as (i & l & Hfirst & _ & Hafter & _ & _ & Hlen).
  split_and!; [exact Hdoc | exact Hex | | vm_compute; reflexivity].
  exists i, l. split_and!; [exact Hfirst | exact Hafter | exact Hlen].
Defined.

(** The pending item listed can be completed with its text. *)
Lemma listed_pending_item_completes_witness :
  let d := js "2024-01-01" in
  let doc := js "[x] shop" ++ nl :: js "  [ ] buy milk " in
  let w := Node.world_with_note d doc in
  let item := TodoItem (js "buy milk") false 1 in
  item ∈ todos (run (getTODOs Node.path_join (Some d)) w)
  ∧ done item = false
  ∧ run (completeTODO Node.path_join (text item) (Some d)) w
    = Completed true (text item) true.
Proof.
  intros d doc w item.
  assert (item ∈ todos (run (getTODOs Node.path_join (Some d)) w)) as Hin.
  { apply list_elem_of_In. vm_compute. auto. }
  split_and!; [exact Hin | reflexivity|].
  exact (listed_pending_item_completes Node.path_join d w item Hin eq_refl).
Defined.

(** Three notes and limit 2: the oldest is left out. *)
Lemma list_daily_notes_newest_witness :
  let names := [js "2024-01-02.md"; js "2023-12-31.md"; js "2024-03-01.md"] in
  let r := listDailyNotes Node.localeCompare (Listing names) (Some 2%Z) in
  NoDup names ∧ (0 ≤ 2)%Z
  ∧ js "2023-12-31.md" ∈ names
  ∧ CONFIG.dailyNotePattern (js "2023-12-31.md") = true
  ∧ ((∃ n, n ∈ notes r ∧ js "2023-12-31.md" = n ++ js ".md")
     ∨ ((Z.to_nat 2 < length (List.filter CONFIG.dailyNotePattern names))%nat
        ∧ length (notes r) = Z.to_nat 2
        ∧ ∀ n, n ∈ notes r → JS.lex_lt (js "2023-12-31.md") (n ++ js ".md")))
  ∧ notes r = [js "2024-03-01"; js "2024-01-02"].
Proof.
  intros names r.
  assert (NoDup names) as Hnd by (apply (bool_decide_unpack _); vm_compute; exact I).
  assert (0 ≤ 2)%Z as Hlimit by lia.
  assert (js "2023-12-31.md" ∈ names) as Hin
    by (apply list_elem_of_In; vm_compute; auto).
  assert (CONFIG.dailyNotePattern (js "2023-12-31.md") = true) as Hpat
    by (vm_compute; reflexivity).
  split_and!; [exact Hnd | exact Hlimit | exact Hin | exact Hpat |
               | vm_compute; reflexivity].
  exact (list_daily_notes_newest Node.localeCompare
           (λ a b _ _, Node_localeCompare_lt a b)
           (λ a b _ _, Node_localeCompare_eq a b)
           names 2%Z Hnd Hlimit (js "2023-12-31.md") Hin Hpat).
Defined.

(** Three notes and limit -1: two are returned. *)
Lemma list_daily_notes_drops_last_witness :
  let names := [js "2024-01-02.md"; js "2023-12-31.md"; js "2024-03-01.md"] in
  let r := listDailyNotes Node.localeCompare (Listing names) (Some (-1)%Z) in
  (-1 < 0)%Z
  ∧ length (notes r)
    = Z.to_nat (Z.of_nat (length (List.filter CONFIG.dailyNotePattern names)) + -1)
  ∧ lr_count r = length (notes r)
  ∧ notes r = [js "2024-03-01"; js "2024-01-02"].
Proof.
  intros names r.
  assert (-1 < 0)%Z as Hlimit by lia.
  destruct (list_daily_notes_drops_last Node.localeCompare names (-1)%Z Hlimit)
    as [Hlen Hcount].
  split_and!; [exact Hlimit | exact Hlen | exact Hcount | vm_compute; reflexivity].
Defined.

(** The same directory read in two orders. *)
Lemma list_daily_notes_order_independent_witness :
  let names := [js "2024-01-02.md"; js "2023-12-31.md"; js "2024-03-01.md"] in
  let names' := [js "2024-03-01.md"; js "2024-01-02.md"; js "2023-12-31.md"] in
  NoDup names ∧ names ≡ₚ names'
  ∧ listDailyNotes Node.localeCompare (Listing names) None
    = listDailyNotes Node.localeCompare (Listing names') None.
Proof.
  intros names names'.
  assert (NoDup names) as Hnd by (apply (bool_decide_unpack _); vm_compute; exact I).
  assert (names ≡ₚ names') as Hperm.
  { unfold names, names'.
    etrans; [apply perm_skip, perm_swap | apply perm_swap]. }
  split_and!; [exact Hnd | exact Hperm|].
  exact (list_daily_notes_order_independent Node.localeCompare
           (λ a b _ _, Node_localeCompare_lt a b)
           (λ a b _ _, Node_localeCompare_eq a b)
           names names' None Hnd Hperm).
Defined.

(** A note for the day of the clock, read without a date. *)
Lemma default_date_is_today_witness :
  let d := js "2024-01-01" in
  let w := Node.world_with_note d (js "[ ] call home") in
  clock w (ticks w) = d ++ 84 :: js "09:30:00.000Z"
  ∧ (84 ∉ d)
  ∧ run (getDailyNote Node.path_join None) w
    = DailyNote true d (Some (js "[ ] call home"))
  ∧ run (getTODOs Node.path_join None) w
    = run (getTODOs Node.path_join (Some d)) w
  ∧ run (completeTODO Node.path_join (js "call") None) w
    = run (completeTODO Node.path_join (js "call") (Some d)) w.
Proof.
  intros d w.
  assert (clock w (ticks w) = d ++ 84 :: js "09:30:00.000Z") as Hclock
    by (vm_compute; reflexivity).
  assert (84 ∉ d) as Hd by (apply (bool_decide_unpack _); vm_compute; exact I).
  destruct (default_date_is_today Node.path_join d (js "09:30:00.000Z")
              (js "x") (js "call") w Hclock Hd) as (H1 & H2 & _ & _ & H5 & _).
  split_and!; [exact Hclock | exact Hd | | exact H2 | exact H5].
  rewrite H1. vm_compute. reflexivity.
Defined.

(** Two messages, the second followed by two blank lines, and the start
    of a third. *)
Lemma readStdin_frames_witness :
  let messages := [([js "{"; js "}"], [[]]); ([js "{}"], [js "  "; []])] in
  let tail := [js "{"] in
  Forall (λ '(block, blanks),
            block ≠ [] ∧ Forall (λ l, ¬ blank l) block
            ∧ blanks ≠ [] ∧ Forall blank blanks) messages
  ∧ Forall (λ l, ¬ blank l) tail
  ∧ readStdin [js "{"; js "}"; []; js "{}"; js "  "; []; js "{"] []
    = ([js "{" ++ nl :: js "}" ++ [nl]; js "{}" ++ [nl]], js "{" ++ [nl]).
Proof.
  intros messages tail.
  assert (∀ l, JS.trim l ≠ [] → ¬ blank l) as Hnb by (intros l H; exact H).
  assert (Forall (λ '(block, blanks),
            block ≠ [] ∧ Forall (λ l, ¬ blank l) block
            ∧ blanks ≠ [] ∧ Forall blank blanks) messages) as Hm.
  { repeat constructor; try done; apply Hnb; vm_compute; discriminate. }
  assert (Forall (λ l, ¬ blank l) tail) as Ht.
  { repeat constructor. apply Hnb. vm_compute. discriminate. }
  split_and!; [exact Hm | exact Ht|].
  exact (readStdin_frames messages tail Hm Ht).
Defined.
